(** * Indicator engine and signal classifier of the trading assistant

    A shallow embedding of [src/python/engine.py] (the five indicator
    functions) and of the indicator/classification block of
    [analyze_stock] in [src/python/backend.py] (lines 172-193).

    Numbers.  The source computes on [numpy.float64].  Here a price is a
    real number and arithmetic is exact: rounding, overflow, infinities
    and NaN are outside the model.  Every operation of the source that has
    no mathematically defined result (a division by zero, the square root
    of a negative number, the extremum of an empty array, an index out of
    range) is a raised exception of the [result] monad below, so that
    "the function returns a value" is a statement one can prove.

    The statements proved on this model are about which operations the
    code performs and in which order, about comparisons, copies, minima
    and maxima, and about exceptions; they are not statements about
    rounding.  Where rounding and overflow decide what the code returns,
    module [Float64] repeats the engine in IEEE binary64 and the section
    [Float64Facts] evaluates it.

    Sequences.  A price series is a [list R]; the [for i in range(..)]
    loops of the source are kept as loops over indices with checked
    indexing. *)

From Stdlib Require Import Reals Lra Lia List Bool Arith String Sorted.
From Stdlib Require SpecFloat.
Import ListNotations.

Open Scope R_scope.

(** ** Python values: exceptions, checked primitives, loops *)

Module Py.

Inductive exn : Type :=
| ZeroDivisionError   (* x / 0, also numpy's mean of an empty array *)
| ValueError          (* math.sqrt of a negative number, min/max of an empty array *)
| IndexError.         (* a[i] with i out of range *)

Inductive result (A : Type) : Type :=
| Ok (a : A)
| Raise (e : exn).

Arguments Ok {A} a.
Arguments Raise {A} e.

Definition bind {A B : Type} (c : result A) (k : A -> result B) : result B :=
  match c with
  | Ok a => k a
  | Raise e => Raise e
  end.

Definition returns {A : Type} (c : result A) : Prop := exists a, c = Ok a.

Definition Rltb (x y : R) : bool := if Rlt_dec x y then true else false.
Definition Rgtb (x y : R) : bool := Rltb y x.
Definition Reqb (x y : R) : bool := if Req_dec_T x y then true else false.

(** [len(a)] *)
Definition len {A : Type} (a : list A) : nat := List.length a.

(** [a[i]] for a non-negative index [i] *)
Definition getitem (a : list R) (i : nat) : result R :=
  match nth_error a i with
  | Some x => Ok x
  | None => Raise IndexError
  end.

(** [x / y] *)
Definition div (x y : R) : result R :=
  if Reqb y 0 then Raise ZeroDivisionError else Ok (x / y).

(** [math.sqrt(x)] *)
Definition math_sqrt (x : R) : result R :=
  if Rltb x 0 then Raise ValueError else Ok (sqrt x).

(** [range(lo, hi)] *)
Definition range (lo hi : nat) : list nat := seq lo (hi - lo).

(** [for i in idx: s = body(i, s)] *)
Fixpoint for_each {S : Type} (idx : list nat) (body : nat -> S -> result S) (s : S)
  : result S :=
  match idx with
  | [] => Ok s
  | i :: rest => bind (body i s) (for_each rest body)
  end.

(** [c1 and c2] on conditions that may raise: [c2] is evaluated only when
    [c1] is true. *)
Definition and_then (c1 c2 : result bool) : result bool :=
  bind c1 (fun b => if b then c2 else Ok false).

(** [np.sum(a)], [np.mean(a)], [a.min()], [a.max()] *)
Definition np_sum (a : list R) : R := fold_left Rplus a 0.

Definition np_mean (a : list R) : result R := div (np_sum a) (INR (len a)).

Definition np_min (a : list R) : result R :=
  match a with
  | [] => Raise ValueError
  | x :: rest => Ok (fold_left Rmin rest x)
  end.

Definition np_max (a : list R) : result R :=
  match a with
  | [] => Raise ValueError
  | x :: rest => Ok (fold_left Rmax rest x)
  end.

End Py.

Import Py.

Notation "x <- c ;; k" := (bind c (fun x => k))
  (at level 61, c at next level, right associativity).
Notation "' pat <- c ;; k" := (bind c (fun x => match x with pat => k end))
  (at level 61, pat pattern, c at next level, right associativity).

(** ** [src/python/engine.py] *)

Module Engine.

Definition calculate_volatility (prices : list R) : result R :=
  if (len prices =? 0)%nat then Ok 0 else
  mean <- np_mean prices ;;
  variance <- np_mean (map (fun p => (p - mean) ^ 2) prices) ;;
  math_sqrt variance.

Definition calculate_sma (prices : list R) : result R :=
  if (len prices =? 0)%nat then Ok 0 else np_mean prices.

Definition ema_body (alpha : R) (a : list R) (i : nat) (ema : R) : result R :=
  x <- getitem a i ;;
  Ok (alpha * x + (1 - alpha) * ema).

Definition calculate_ema (prices : list R) (alpha : R) : result R :=
  if (len prices =? 0)%nat then Ok 0 else
  ema0 <- getitem prices 0 ;;
  for_each (range 1 (len prices)) (ema_body alpha prices) ema0.

Definition default_alpha : R := 0.1.

Definition rsi_body (a : list R) (i : nat) (st : R * R) : result (R * R) :=
  let '(gain, loss) := st in
  x <- getitem a i ;;
  y <- getitem a (i - 1) ;;
  let diff := x - y in
  if Rgtb diff 0 then Ok (gain + diff, loss) else Ok (gain, loss - diff).

Definition rsi_loop (a : list R) : result (R * R) :=
  for_each (range 1 (len a)) (rsi_body a) (0, 0).

Definition calculate_rsi (prices : list R) : result R :=
  if (len prices <? 2)%nat then Ok 50 else
  '(gain, loss) <- rsi_loop prices ;;
  if Reqb loss 0 then Ok 100 else
  rs <- div gain loss ;;
  q <- div 100 (1 + rs) ;;
  Ok (100 - q).

(** [a[i] < a[j]] and [a[i] > a[j]] *)
Definition lt_at (a : list R) (i j : nat) : result bool :=
  x <- getitem a i ;; y <- getitem a j ;; Ok (Rltb x y).

Definition gt_at (a : list R) (i j : nat) : result bool :=
  x <- getitem a i ;; y <- getitem a j ;; Ok (Rgtb x y).

(** [l.append(a[i])] *)
Definition append_at (a : list R) (i : nat) (l : list R) : result (list R) :=
  x <- getitem a i ;; Ok (l ++ [x]).

Definition sr_body (a : list R) (i : nat) (st : list R * list R)
  : result (list R * list R) :=
  let '(supports, resistances) := st in
  is_min <- and_then (lt_at a i (i - 1)) (lt_at a i (i + 1)) ;;
  supports' <- (if is_min then append_at a i supports else Ok supports) ;;
  is_max <- and_then (gt_at a i (i - 1)) (gt_at a i (i + 1)) ;;
  resistances' <- (if is_max then append_at a i resistances else Ok resistances) ;;
  Ok (supports', resistances').

Definition find_support_resistance (prices : list R) : result (list R * list R) :=
  if (len prices <? 3)%nat then Ok ([], []) else
  for_each (range 1 (len prices - 1)) (sr_body prices) ([], []).

End Engine.

(** ** [src/python/backend.py], [analyze_stock], lines 172-193 *)

Module Backend.

Import Engine.

(** Line 188. *)
Definition trend_of (ema sma : R) : string :=
  if Rgtb ema (1.01 * sma) then "bullish"
  else if Rltb ema (0.99 * sma) then "bearish" else "neutral".

(** Line 189. *)
Definition momentum_of (rsi : R) : string :=
  if Rgtb rsi 70 then "Overbought"
  else if Rltb rsi 30 then "Oversold" else "neutral".

(** Line 190. *)
Definition risk_ratio_of (vol sma : R) : result R :=
  if Rgtb sma 0 then div vol sma else Ok 0.

(** Line 191. *)
Definition risk_of (risk_ratio : R) : string :=
  if Rgtb risk_ratio 0.08 then "High Risk"
  else if Rgtb risk_ratio 0.04 then "Medium Risk" else "Low Risk".

(** Lines 192-193. *)
Definition signal_of (trend : string) (rsi : R) (risk : string) : string :=
  if (trend =? "bullish")%string && Rltb rsi 60 && negb (risk =? "High Risk")%string
  then "BUY"
  else if (trend =? "bearish")%string && Rgtb rsi 40 then "SELL" else "HOLD".

Record classification : Type := {
  trend : string;
  momentum_status : string;
  risk_ratio : R;
  risk : string;
  final_signal : string
}.

(** Lines 188-193: the "Signals" block. *)
Definition classify (vol sma ema rsi : R) : result classification :=
  let trend := trend_of ema sma in
  let momentum_status := momentum_of rsi in
  risk_ratio <- risk_ratio_of vol sma ;;
  let risk := risk_of risk_ratio in
  let final_signal := signal_of trend rsi risk in
  Ok {| trend := trend; momentum_status := momentum_status;
        risk_ratio := risk_ratio; risk := risk; final_signal := final_signal |}.

Record analysis : Type := {
  vol : R;
  sma : R;
  ema : R;
  rsi : R;
  support_level : R;
  resistance_level : R;
  signals : classification
}.

(** Lines 172-193 of [analyze_stock], as a function of the extracted close
    prices.  [Ok None] is the [return None] of line 174.  The values are
    those of the local variables of the source; the rounding to two
    decimals of the response dictionary (lines 238-249) is presentation
    and is not applied here. *)
Definition analyze_stock (prices : list R) : result (option analysis) :=
  if (len prices =? 0)%nat then Ok None else
  vol <- calculate_volatility prices ;;
  sma <- calculate_sma prices ;;
  ema <- calculate_ema prices 0.1 ;;
  rsi <- calculate_rsi prices ;;
  '(supports, resistances) <- find_support_resistance prices ;;
  support_level <-
    (if (0 <? len supports)%nat then np_min supports else np_min prices) ;;
  resistance_level <-
    (if (0 <? len resistances)%nat then np_max resistances else np_max prices) ;;
  signals <- classify vol sma ema rsi ;;
  Ok (Some {| vol := vol; sma := sma; ema := ema; rsi := rsi;
              support_level := support_level;
              resistance_level := resistance_level;
              signals := signals |}).

End Backend.

(** ** The specification's wording, for comparison with the code *)

Module Spec.

(** Sum of a sequence. *)
Definition Rsum (l : list R) : R := fold_right Rplus 0 l.

(** Consecutive deltas [p1 - p0; p2 - p1; ...]. *)
Fixpoint deltas (prices : list R) : list R :=
  match prices with
  | x :: (y :: _) as rest => (y - x) :: deltas rest
  | _ => []
  end.

(** "total positive deltas" *)
Definition total_gain (prices : list R) : R :=
  Rsum (filter (fun d => Rgtb d 0) (deltas prices)).

(** "total magnitude of negative deltas" *)
Definition total_loss (prices : list R) : R :=
  Rsum (map Rabs (filter (fun d => Rltb d 0) (deltas prices))).

(** "If loss == 0, return 100.0.  Otherwise RSI = 100 - 100/(1 + gain/loss)." *)
Definition rsi_formula (gain loss : R) : R :=
  if Reqb loss 0 then 100 else 100 - 100 / (1 + gain / loss).

(** "ema_0 = prices[0]; ema_i = alpha * prices[i] + (1 - alpha) * ema_(i-1)" *)
Fixpoint ema_at (alpha : R) (prices : list R) (i : nat) : R :=
  match i with
  | O => nth 0 prices 0
  | S j => alpha * nth i prices 0 + (1 - alpha) * ema_at alpha prices j
  end.

(** "strictly less than both neighbors", "strictly greater than both
    neighbors", at index [i]. *)
Definition local_min (prices : list R) (i : nat) : Prop :=
  nth i prices 0 < nth (i - 1) prices 0 /\ nth i prices 0 < nth (i + 1) prices 0.

Definition local_max (prices : list R) (i : nat) : Prop :=
  nth i prices 0 > nth (i - 1) prices 0 /\ nth i prices 0 > nth (i + 1) prices 0.

(** "interior index i (1 <= i <= n-2)", written without subtraction. *)
Definition interior (prices : list R) (i : nat) : Prop :=
  (1 <= i /\ i + 2 <= len prices)%nat.

(** The values of [prices] at the indices [idx], in that order. *)
Definition values_at (prices : list R) (idx : list nat) : list R :=
  map (fun i => nth i prices 0) idx.

(** [m] is the minimum (maximum) of the sequence [l]. *)
Definition is_min_of (m : R) (l : list R) : Prop :=
  In m l /\ forall x, In x l -> m <= x.

Definition is_max_of (m : R) (l : list R) : Prop :=
  In m l /\ forall x, In x l -> x <= m.

(** Every element equals [v]. *)
Definition constant (v : R) (prices : list R) : Prop :=
  forall x, In x prices -> x = v.

(** Each price is at least (resp. strictly below) the one before it. *)
Definition increasing (prices : list R) : Prop :=
  forall i, (S i < len prices)%nat -> nth i prices 0 <= nth (S i) prices 0.

Definition strictly_decreasing (prices : list R) : Prop :=
  forall i, (S i < len prices)%nat -> nth (S i) prices 0 < nth i prices 0.

End Spec.

(** ** The loops read off the list

    Structural versions of the index loops, used in the proofs below; each
    is shown equal to the loop of the source. *)

Module Unrolled.

(** One pass of the body of the RSI loop on the delta [d]. *)
Definition rsi_step (d : R) (st : R * R) : R * R :=
  if Rgtb d 0 then (fst st + d, snd st) else (fst st, snd st - d).

(** The RSI loop: [prev] is the element before [rest]. *)
Fixpoint rsi_acc (prev : R) (rest : list R) (st : R * R) : R * R :=
  match rest with
  | [] => st
  | x :: rest' => rsi_acc x rest' (rsi_step (x - prev) st)
  end.

(** The tests of the support/resistance loop at index [i], on values. *)
Definition is_support (a : list R) (i : nat) : bool :=
  Rltb (nth i a 0) (nth (i - 1) a 0) && Rltb (nth i a 0) (nth (i + 1) a 0).

Definition is_resistance (a : list R) (i : nat) : bool :=
  Rgtb (nth i a 0) (nth (i - 1) a 0) && Rgtb (nth i a 0) (nth (i + 1) a 0).

(** The interior indices [1 .. len a - 2], in order. *)
Definition interior_indices (a : list R) : list nat := range 1 (len a - 1).

End Unrolled.

(** ** [analyze_stock], lines 103-126: the date window *)

Module Dates.

Open Scope Z_scope.

(** A [datetime.date] is taken as its proleptic Gregorian ordinal
    ([date.toordinal()], 1 for 0001-01-01): dates compare as their
    ordinals, and [d - timedelta(days=n)] is the date of ordinal [d - n],
    or an [OverflowError] when that falls before [date.min].  The two
    strings [date_from] and [date_to] of the source are kept in step with
    the two date objects (re-formatted when an object is replaced,
    swapped when the objects are swapped), so only the objects are
    modelled.  Parsing ([strptime]) is outside the model. *)
Definition date_min : Z := 1.

(** [d - timedelta(days=n)]; [None] is the [OverflowError]. *)
Definition minus_days (d n : Z) : option Z :=
  if d - n <? date_min then None else Some (d - n).

(** Lines 109-126, from the parsed dates; [None] is an exception, which
    line 258 turns into [return None]. *)
Definition adjust_dates (today date_from_obj date_to_obj : Z) : option (Z * Z) :=
  let date_to_obj := if date_to_obj >? today then today else date_to_obj in
  match (if date_from_obj >? today then minus_days today 30
         else Some date_from_obj) with
  | None => None
  | Some date_from_obj =>
      let '(date_from_obj, date_to_obj) :=
        if date_from_obj >? date_to_obj
        then (date_to_obj, date_from_obj)
        else (date_from_obj, date_to_obj) in
      match minus_days today (365 * 5) with
      | None => None
      | Some max_lookback =>
          let date_from_obj :=
            if date_from_obj <? max_lookback then max_lookback
            else date_from_obj in
          Some (date_from_obj, date_to_obj)
      end
  end.

End Dates.

(** ** Ticker symbols: lines 131-132, 148-150 and 320-323 *)

Module Symbols.

Import Ascii.

Open Scope string_scope.

(** ['.' in s] *)
Fixpoint has_dot (s : string) : bool :=
  match s with
  | EmptyString => false
  | String c rest => Ascii.eqb c "."%char || has_dot rest
  end.

(** [if '.' not in stock_symbol: stock_symbol = f"{stock_symbol}.NS"] *)
Definition with_exchange (stock_symbol : string) : string :=
  if negb (has_dot stock_symbol) then stock_symbol ++ ".NS" else stock_symbol.

(** [s.endswith(suffix)] *)
Definition endswith (s suffix : string) : bool :=
  (String.length suffix <=? String.length s)%nat
  && (substring (String.length s - String.length suffix)
                (String.length suffix) s =? suffix).

(** [s.replace('.NS', '')]: every occurrence, left to right, without
    overlap. *)
Fixpoint remove_NS (s : string) : string :=
  match s with
  | EmptyString => EmptyString
  | String a t =>
      match t with
      | String b (String c rest) =>
          if Ascii.eqb a "."%char && Ascii.eqb b "N"%char && Ascii.eqb c "S"%char
          then remove_NS rest
          else String a (remove_NS t)
      | _ => String a (remove_NS t)
      end
  end.

End Symbols.

(** ** [analyze_stock], lines 128-157: downloading the data *)

Module Download.

Import Symbols.

Section WithProvider.

(** The market-data provider.  [download symbol w] is
    [yf.download(symbol, start=date_from, end=date_to, ...)] issued in the
    state [w] of the outside world: it yields the data frame, or [None]
    when the call raises, and the next state.  [is_empty d] is
    [d.empty]. *)
Variables frame world : Type.
Variable is_empty : frame -> bool.
Variable download : string -> world -> option frame * world.

(** Lines 129-140. *)
Definition fetch_data (symbol : string) (w : world) : option frame * world :=
  match download symbol w with
  | (None, w1) => (None, w1)
  | (Some data, w1) =>
      if is_empty data && endswith symbol ".NS"
      then download (remove_NS symbol) w1
      else (Some data, w1)
  end.

(** [data is None or data.empty] *)
Definition unusable (data : option frame) : bool :=
  match data with
  | None => true
  | Some d => is_empty d
  end.

(** Lines 142-151; [None] is the [return None] of line 151. *)
Definition acquire (stock_symbol : string) (w : world) : option frame * world :=
  let original_symbol := stock_symbol in
  let stock_symbol := with_exchange stock_symbol in
  let '(data, w1) := fetch_data stock_symbol w in
  let '(data, w2) :=
    if unusable data then fetch_data original_symbol w1 else (data, w1) in
  if unusable data then (None, w2) else (data, w2).

End WithProvider.

Arguments fetch_data {frame world} is_empty download symbol w.
Arguments unusable {frame} is_empty data.
Arguments acquire {frame world} is_empty download stock_symbol w.

End Download.

(** ** [analyze_stock], lines 195-256: explanation and response *)

Module Response.

Import Backend.

Section WithEnvironment.

(** [round(x, 2)] on floats and the chart payload are left abstract. *)
Variable round2 : R -> R.
Variable chart : Type.

Record response : Type := {
  volatility : R;
  volatility_percent : R;
  sma : R;
  ema : R;
  rsi : R;
  support : R;
  resistance : R;
  trend : string;
  momentum : string;
  risk : string;
  signal : string;
  current_price : R;
  ai_explanation : option string;
  chart_data : chart
}.

(** Lines 196-219.  [gemini] is [GEMINI_AVAILABLE and GEMINI_API_KEY];
    [generated] is the text of the model's answer, [None] when the call
    raises.  The first component is the local variable
    [current_price_safe], [None] while it has not been assigned; the
    second is [ai_explanation]. *)
Definition explain (gemini : bool) (generated : option string) (prices : list R)
  : option R * option string :=
  if gemini then
    match prices with
    | [] => (None, None)
    | _ :: _ => (Some (last prices 0), generated)
    end
  else (None, None).

(** Reading a local variable: unassigned, it raises [UnboundLocalError]. *)
Definition read_local (x : option R) : option R := x.

(** [(float(vol) / float(sma) * 100) if sma > 0 else 0] *)
Definition percent_of (vol sma : R) : result R :=
  if Rgtb sma 0 then bind (div vol sma) (fun q => Ok (q * 100)) else Ok 0.

(** Lines 238-256: the dictionary, its entries evaluated in order;
    [None] is an exception raised on the way. *)
Definition build (an : analysis) (current_price_safe : option R)
    (ai_explanation : option string) (ch : chart) : option response :=
  match percent_of (Backend.vol an) (Backend.sma an) with
  | Raise _ => None
  | Ok pct =>
      match read_local current_price_safe with
      | None => None
      | Some price =>
          Some {| volatility := round2 (Backend.vol an);
                  volatility_percent := round2 pct;
                  sma := round2 (Backend.sma an);
                  ema := round2 (Backend.ema an);
                  rsi := round2 (Backend.rsi an);
                  support := round2 (support_level an);
                  resistance := round2 (resistance_level an);
                  trend := Backend.trend (signals an);
                  momentum := momentum_status (signals an);
                  risk := Backend.risk (signals an);
                  signal := final_signal (signals an);
                  current_price := round2 price;
                  ai_explanation := ai_explanation;
                  chart_data := ch |}
      end
  end.

(** Lines 172-256 of [analyze_stock], from the extracted prices: the
    indicator block, the explanation, the chart ([drawn] is the chart
    payload, [None] when building it raises), the dictionary.  Every
    exception ends in the [return None] of line 262. *)
Definition analyze_stock_response (gemini : bool) (generated : option string)
    (drawn : option chart) (prices : list R) : option response :=
  match analyze_stock prices with
  | Ok (Some an) =>
      let '(current_price_safe, ai_explanation) :=
        explain gemini generated prices in
      match drawn with
      | None => None
      | Some ch => build an current_price_safe ai_explanation ch
      end
  | Ok None => None
  | Raise _ => None
  end.

End WithEnvironment.

Arguments build round2 {chart} an current_price_safe ai_explanation ch.
Arguments analyze_stock_response round2 {chart} gemini generated drawn prices.
Arguments current_price {chart} r.
Arguments ai_explanation {chart} r.
Arguments chart_data {chart} r.
Arguments signal {chart} r.
Arguments trend {chart} r.
Arguments momentum {chart} r.
Arguments risk {chart} r.

End Response.

(** ** [api_analyze], lines 304-337 *)

Module Api.

Import Symbols.

Section WithAnalysis.

(** [analyze symbol date_from date_to w] is
    [analyze_stock(symbol, date_from, date_to)] run in the state [w] of
    the outside world: the response dictionary or [None], and the next
    state.  The three parameters are taken as the handler has read them
    from the request, [None] when absent. *)
Variables world response : Type.
Variable analyze : string -> string -> string -> world -> option response * world.

Inductive reply : Type :=
| Analysis (result : response)   (* 200, the dictionary *)
| MissingParameters              (* 400 *)
| AnalysisFailed (symbol : string).  (* 400 *)

(** [not x] for a parameter that is a string or [None]. *)
Definition missing (x : option string) : bool :=
  match x with
  | None => true
  | Some EmptyString => true
  | Some (String _ _) => false
  end.

Definition api_analyze (stock_symbol date_from date_to : option string) (w : world)
  : reply * world :=
  match stock_symbol, date_from, date_to with
  | Some symbol, Some from, Some to =>
      if missing stock_symbol || missing date_from || missing date_to
      then (MissingParameters, w)
      else
        let original_symbol := symbol in
        let stock_symbol := with_exchange symbol in
        let '(result, w1) := analyze stock_symbol from to w in
        let '(result, w2) :=
          match result with
          | None =>
              if endswith stock_symbol ".NS"
                 && negb (original_symbol =? stock_symbol)%string
              then analyze original_symbol from to w1
              else (None, w1)
          | Some _ => (result, w1)
          end in
        match result with
        | None => (AnalysisFailed original_symbol, w2)
        | Some r => (Analysis r, w2)
        end
  | _, _, _ => (MissingParameters, w)
  end.

End WithAnalysis.

Arguments Analysis {response} result.
Arguments MissingParameters {response}.
Arguments AnalysisFailed {response} symbol.
Arguments api_analyze {world response} analyze stock_symbol date_from date_to w.

End Api.

(** ** The engine in IEEE binary64 *)

Module Float64.

Import SpecFloat.

Open Scope Z_scope.

(** A [numpy.float64] (and a Python [float]) is an IEEE 754 binary64
    value: [spec_float] at precision 53 and maximal exponent 1024, with
    the correctly rounded operations of the standard (round to nearest,
    ties to even).  The functions below repeat [engine.py] operation by
    operation on these values; they are used to evaluate the code where
    rounding and overflow matter. *)
Definition float : Type := spec_float.

Definition prec : Z := 53.
Definition emax : Z := 1024.

Definition add : float -> float -> float := SFadd prec emax.
Definition sub : float -> float -> float := SFsub prec emax.
Definition mul : float -> float -> float := SFmul prec emax.
Definition div : float -> float -> float := SFdiv prec emax.
Definition sqrt : float -> float := SFsqrt prec emax.
Definition ltb : float -> float -> bool := SFltb.
Definition eqb : float -> float -> bool := SFeqb.

(** The float nearest to the integer [z]; [of_Z 0] is [+0.0]. *)
Definition of_Z (z : Z) : float := binary_normalize prec emax z 0 false.

(** The float nearest to [n / d], for [n] and [d] that are floats
    themselves: the value of a decimal literal such as [0.1] or
    [100.1]. *)
Definition ratio (n d : Z) : float := div (of_Z n) (of_Z d).


Definition is_infinite (x : float) : bool :=
  match x with S754_infinity _ => true | _ => false end.

(** A finite positive value, as the specification asks of a price. *)
Definition is_price (x : float) : bool := ltb (of_Z 0) x && negb (is_infinite x).

(** [a[i]] *)
Definition getitem (a : list float) (i : nat) : result float :=
  match nth_error a i with
  | Some x => Ok x
  | None => Raise IndexError
  end.

(** [math.sqrt(x)]: a [ValueError] below zero, also at minus infinity. *)
Definition math_sqrt (x : float) : result float :=
  if ltb x (of_Z 0) then Raise ValueError else Ok (sqrt x).

(** [np.mean(a)] for a float64 array of fewer than eight elements: numpy
    adds such an array element by element from the left, starting from
    0, and divides by the count.  Longer arrays are added in blocks, in
    another order; they are outside this model ([None]). *)
Definition np_mean (a : list float) : option float :=
  if (len a <? 8)%nat
  then Some (div (fold_left add a (of_Z 0)) (of_Z (Z.of_nat (len a))))
  else None.

(** Lines 9-16; [None] for an array of eight elements or more. *)
Definition calculate_volatility (prices : list float) : option (result float) :=
  if (len prices =? 0)%nat then Some (Ok (of_Z 0)) else
  match np_mean prices with
  | None => None
  | Some mean =>
      match np_mean (map (fun p => mul (sub p mean) (sub p mean)) prices) with
      | None => None
      | Some variance => Some (math_sqrt variance)
      end
  end.

(** Lines 19-24; [None] for an array of eight elements or more. *)
Definition calculate_sma (prices : list float) : option float :=
  if (len prices =? 0)%nat then Some (of_Z 0) else np_mean prices.

(** Lines 27-35. *)
Definition ema_body (alpha : float) (a : list float) (i : nat) (ema : float)
  : result float :=
  x <- getitem a i ;;
  Ok (add (mul alpha x) (mul (sub (of_Z 1) alpha) ema)).

Definition calculate_ema (prices : list float) (alpha : float) : result float :=
  if (len prices =? 0)%nat then Ok (of_Z 0) else
  ema0 <- getitem prices 0 ;;
  for_each (range 1 (len prices)) (ema_body alpha prices) ema0.

(** Lines 38-54.  The two quotients are numpy's: they do not raise. *)
Definition rsi_body (a : list float) (i : nat) (st : float * float)
  : result (float * float) :=
  let '(gain, loss) := st in
  x <- getitem a i ;;
  y <- getitem a (i - 1) ;;
  let diff := sub x y in
  if ltb (of_Z 0) diff then Ok (add gain diff, loss) else Ok (gain, sub loss diff).

Definition calculate_rsi (prices : list float) : result float :=
  if (len prices <? 2)%nat then Ok (of_Z 50) else
  '(gain, loss) <-
    for_each (range 1 (len prices)) (rsi_body prices) (of_Z 0, of_Z 0) ;;
  if eqb loss (of_Z 0) then Ok (of_Z 100) else
  let rs := div gain loss in
  Ok (sub (of_Z 100) (div (of_Z 100) (add (of_Z 1) rs))).

End Float64.

(** ** Facts about the Python primitives *)

Section PyFacts.

Lemma Rltb_true (x y : R) : Rltb x y = true <-> x < y.
Proof. unfold Rltb; destruct (Rlt_dec x y); split; intros; try easy. Qed.

Lemma Rltb_false (x y : R) : Rltb x y = false <-> y <= x.
Proof.
  unfold Rltb; destruct (Rlt_dec x y); split; intros; try easy; lra.
Qed.

Lemma Rgtb_true (x y : R) : Rgtb x y = true <-> x > y.
Proof. unfold Rgtb. rewrite Rltb_true. lra. Qed.

Lemma Rgtb_false (x y : R) : Rgtb x y = false <-> x <= y.
Proof. unfold Rgtb. rewrite Rltb_false. lra. Qed.

Lemma Reqb_true (x y : R) : Reqb x y = true <-> x = y.
Proof. unfold Reqb; destruct (Req_dec_T x y); split; intros; easy. Qed.

Lemma Reqb_false (x y : R) : Reqb x y = false <-> x <> y.
Proof. unfold Reqb; destruct (Req_dec_T x y); split; intros; easy. Qed.

Lemma getitem_nth (a : list R) (i : nat) :
  (i < len a)%nat -> getitem a i = Ok (nth i a 0).
Proof.
  unfold getitem, len. intros Hi.
  destruct (nth_error a i) as [x|] eqn:E.
  - now rewrite (nth_error_nth a i 0 E).
  - apply nth_error_None in E. lia.
Qed.

Lemma div_nonzero (x y : R) : y <> 0 -> div x y = Ok (x / y).
Proof. intros H. unfold div. apply Reqb_false in H. now rewrite H. Qed.

Lemma math_sqrt_nonneg (x : R) : 0 <= x -> math_sqrt x = Ok (sqrt x).
Proof. intros H. unfold math_sqrt. apply Rltb_false in H. now rewrite H. Qed.

Lemma np_sum_from (a : list R) (s : R) : fold_left Rplus a s = s + np_sum a.
Proof.
  unfold np_sum. revert s.
  induction a as [|x a IH]; intros s; simpl.
  - lra.
  - rewrite (IH (s + x)), (IH (0 + x)). lra.
Qed.

Lemma np_sum_cons (x : R) (a : list R) : np_sum (x :: a) = x + np_sum a.
Proof. unfold np_sum at 1. simpl. rewrite np_sum_from. lra. Qed.

Lemma np_sum_nonneg (a : list R) : Forall (fun x => 0 <= x) a -> 0 <= np_sum a.
Proof.
  induction 1 as [|x a Hx _ IH].
  - unfold np_sum; simpl; lra.
  - rewrite np_sum_cons. lra.
Qed.

Lemma INR_len_pos {A : Type} (a : list A) : a <> [] -> 0 < INR (len a).
Proof.
  destruct a as [|x a]; [easy|]. intros _.
  unfold len. apply lt_0_INR. simpl. lia.
Qed.

Lemma np_mean_nonempty (a : list R) :
  a <> [] -> np_mean a = Ok (np_sum a / INR (len a)).
Proof.
  intros H. unfold np_mean. apply div_nonzero.
  pose proof (INR_len_pos a H). lra.
Qed.

Lemma len_zero {A : Type} (a : list A) : (len a =? 0)%nat = false <-> a <> [].
Proof.
  destruct a; simpl; split; intros; try easy.
Qed.

End PyFacts.

(** ** The RSI loop *)

Section RsiLoop.

Import Engine Spec Unrolled.

Lemma getitem_middle (pre : list R) (x : R) (post : list R) :
  getitem (pre ++ x :: post) (len pre) = Ok x.
Proof.
  unfold getitem, len. rewrite nth_error_app2 by lia.
  now rewrite Nat.sub_diag.
Qed.

Lemma getitem_after (pre : list R) (x y : R) (post : list R) :
  getitem (pre ++ x :: y :: post) (S (len pre)) = Ok y.
Proof.
  replace (pre ++ x :: y :: post) with ((pre ++ [x]) ++ y :: post)
    by now rewrite <- app_assoc.
  replace (S (len pre)) with (len (pre ++ [x]))
    by (unfold len; rewrite length_app; simpl; lia).
  apply getitem_middle.
Qed.

Lemma rsi_loop_from (rest pre : list R) (prev : R) (st : R * R) :
  for_each (seq (S (len pre)) (len rest)) (rsi_body (pre ++ prev :: rest)) st
  = Ok (rsi_acc prev rest st).
Proof.
  revert pre prev st.
  induction rest as [|x rest IH]; intros pre prev [gain loss]; [reflexivity|].
  cbn [len List.length seq for_each rsi_acc].
  unfold rsi_body at 1.
  rewrite getitem_after. cbn [bind].
  replace (S (len pre) - 1)%nat with (len pre) by lia.
  rewrite getitem_middle. cbn [bind].
  specialize (IH (pre ++ [prev]) x).
  rewrite <- app_assoc in IH. cbn [app] in IH.
  replace (len (pre ++ [prev])) with (S (len pre)) in IH
    by (unfold len; rewrite length_app; simpl; lia).
  unfold rsi_step. cbn [fst snd].
  destruct (Rgtb (x - prev) 0); cbn [bind]; apply IH.
Qed.

Lemma rsi_loop_cons (x : R) (rest : list R) :
  rsi_loop (x :: rest) = Ok (rsi_acc x rest (0, 0)).
Proof.
  unfold rsi_loop, range. cbn [len List.length].
  replace (S (List.length rest) - 1)%nat with (len rest) by (unfold len; lia).
  apply (rsi_loop_from rest [] x).
Qed.

Lemma total_gain_cons (p x : R) (rest : list R) :
  total_gain (p :: x :: rest)
  = (if Rgtb (x - p) 0 then x - p else 0) + total_gain (x :: rest).
Proof.
  unfold total_gain. change (deltas (p :: x :: rest)) with (x - p :: deltas (x :: rest)).
  cbn [filter]. unfold Rsum.
  destruct (Rgtb (x - p) 0); cbn [fold_right]; lra.
Qed.

Lemma total_loss_cons (p x : R) (rest : list R) :
  total_loss (p :: x :: rest)
  = (if Rgtb (x - p) 0 then 0 else p - x) + total_loss (x :: rest).
Proof.
  unfold total_loss. change (deltas (p :: x :: rest)) with (x - p :: deltas (x :: rest)).
  cbn [filter]. unfold Rsum. destruct (Rgtb (x - p) 0) eqn:Hpos.
  - apply Rgtb_true in Hpos.
    assert (Hneg : Rltb (x - p) 0 = false) by (apply Rltb_false; lra).
    rewrite Hneg. lra.
  - apply Rgtb_false in Hpos.
    destruct (Rltb (x - p) 0) eqn:Hneg.
    + apply Rltb_true in Hneg. cbn [map fold_right].
      rewrite (Rabs_left (x - p)) by lra. lra.
    + apply Rltb_false in Hneg. lra.
Qed.

Lemma rsi_acc_totals (rest : list R) (prev gain loss : R) :
  rsi_acc prev rest (gain, loss)
  = (gain + total_gain (prev :: rest), loss + total_loss (prev :: rest)).
Proof.
  revert prev gain loss.
  induction rest as [|x rest IH]; intros prev gain loss.
  - unfold total_gain, total_loss. simpl. f_equal; lra.
  - cbn [rsi_acc]. unfold rsi_step. cbn [fst snd].
    rewrite total_gain_cons, total_loss_cons.
    destruct (Rgtb (x - prev) 0); rewrite IH; f_equal; lra.
Qed.

Lemma rsi_loop_totals (prices : list R) :
  rsi_loop prices = Ok (total_gain prices, total_loss prices).
Proof.
  destruct prices as [|x rest]; [reflexivity|].
  rewrite rsi_loop_cons, rsi_acc_totals. f_equal. f_equal; lra.
Qed.

Lemma Rsum_nonneg (l : list R) : Forall (fun x => 0 <= x) l -> 0 <= Rsum l.
Proof.
  induction 1 as [|x l Hx _ IH]; simpl; lra.
Qed.

Lemma total_gain_nonneg (prices : list R) : 0 <= total_gain prices.
Proof.
  apply Rsum_nonneg, Forall_forall. intros d Hd.
  apply filter_In in Hd. destruct Hd as [_ Hd].
  apply Rgtb_true in Hd. lra.
Qed.

Lemma total_loss_nonneg (prices : list R) : 0 <= total_loss prices.
Proof.
  apply Rsum_nonneg, Forall_forall. intros d Hd.
  apply in_map_iff in Hd. destruct Hd as [e [<- _]]. apply Rabs_pos.
Qed.

(** The value of [calculate_rsi] on two points or more. *)
Lemma calculate_rsi_formula (prices : list R) :
  (2 <= len prices)%nat ->
  calculate_rsi prices = Ok (rsi_formula (total_gain prices) (total_loss prices)).
Proof.
  intros Hlen. unfold calculate_rsi.
  assert (E : (len prices <? 2)%nat = false) by (apply Nat.ltb_ge; lia).
  rewrite E, rsi_loop_totals. cbn [bind]. unfold rsi_formula.
  destruct (Reqb (total_loss prices) 0) eqn:Hz; [reflexivity|].
  apply Reqb_false in Hz.
  pose proof (total_gain_nonneg prices) as Hg.
  pose proof (total_loss_nonneg prices) as Hl.
  rewrite (div_nonzero _ _ Hz). cbn [bind].
  assert (0 <= total_gain prices / total_loss prices).
  { unfold Rdiv. apply Rle_mult_inv_pos; lra. }
  rewrite div_nonzero by lra. reflexivity.
Qed.

End RsiLoop.

(** ** The EMA loop *)

Section EmaLoop.

Import Engine Spec.

Lemma ema_loop_from (alpha : R) (a : list R) (m k : nat) :
  (k + m < len a)%nat ->
  for_each (seq (S k) m) (ema_body alpha a) (ema_at alpha a k)
  = Ok (ema_at alpha a (k + m)).
Proof.
  revert k. induction m as [|m IH]; intros k Hk.
  - now rewrite Nat.add_0_r.
  - cbn [seq for_each]. unfold ema_body at 1.
    rewrite getitem_nth by lia. cbn [bind].
    change (alpha * nth (S k) a 0 + (1 - alpha) * ema_at alpha a k)
      with (ema_at alpha a (S k)).
    rewrite IH by lia. f_equal. f_equal. lia.
Qed.

Lemma calculate_ema_nonempty (prices : list R) (alpha : R) :
  prices <> [] ->
  calculate_ema prices alpha = Ok (ema_at alpha prices (len prices - 1)).
Proof.
  intros Hne. unfold calculate_ema.
  rewrite (proj2 (len_zero prices) Hne).
  assert (0 < len prices)%nat by (destruct prices; [easy | simpl; lia]).
  rewrite getitem_nth by lia. cbn [bind]. unfold range.
  change (nth 0 prices 0) with (ema_at alpha prices 0).
  rewrite ema_loop_from by lia. reflexivity.
Qed.

End EmaLoop.

(** ** The support/resistance loop *)

Section SupportResistanceLoop.

Import Engine Spec Unrolled.

Lemma sr_body_eval (a : list R) (i : nat) (s r : list R) :
  (1 <= i)%nat -> (i + 1 < len a)%nat ->
  sr_body a i (s, r)
  = Ok (if is_support a i then s ++ [nth i a 0] else s,
        if is_resistance a i then r ++ [nth i a 0] else r).
Proof.
  intros H1 H2. unfold sr_body, and_then, lt_at, gt_at, append_at.
  rewrite (getitem_nth a i), (getitem_nth a (i - 1)), (getitem_nth a (i + 1)) by lia.
  cbn [bind]. unfold is_support, is_resistance.
  destruct (Rltb (nth i a 0) (nth (i - 1) a 0)),
           (Rltb (nth i a 0) (nth (i + 1) a 0)),
           (Rgtb (nth i a 0) (nth (i - 1) a 0)),
           (Rgtb (nth i a 0) (nth (i + 1) a 0)); reflexivity.
Qed.

Lemma sr_loop_from (a : list R) (m k : nat) (s r : list R) :
  (1 <= k)%nat -> (k + m < len a)%nat ->
  for_each (seq k m) (sr_body a) (s, r)
  = Ok (s ++ values_at a (filter (is_support a) (seq k m)),
        r ++ values_at a (filter (is_resistance a) (seq k m))).
Proof.
  revert k s r. induction m as [|m IH]; intros k s r H1 H2.
  - cbn. now rewrite !app_nil_r.
  - cbn [seq for_each filter]. rewrite sr_body_eval by lia. cbn [bind].
    rewrite IH by lia. unfold values_at.
    destruct (is_support a k), (is_resistance a k); cbn [map];
      rewrite <- ?app_assoc; reflexivity.
Qed.

(** The result of [find_support_resistance] as two filters over the
    interior indices. *)
Lemma find_support_resistance_filter (prices : list R) :
  find_support_resistance prices
  = Ok (values_at prices (filter (is_support prices) (interior_indices prices)),
        values_at prices (filter (is_resistance prices) (interior_indices prices))).
Proof.
  unfold find_support_resistance, interior_indices, range.
  destruct (len prices <? 3)%nat eqn:E.
  - apply Nat.ltb_lt in E.
    replace (len prices - 1 - 1)%nat with 0%nat by lia. reflexivity.
  - apply Nat.ltb_ge in E.
    rewrite sr_loop_from by lia. reflexivity.
Qed.

Lemma in_interior_indices (prices : list R) (i : nat) :
  In i (interior_indices prices) <-> interior prices i.
Proof.
  unfold interior_indices, range, interior. rewrite in_seq. lia.
Qed.

Lemma is_support_spec (prices : list R) (i : nat) :
  is_support prices i = true <-> local_min prices i.
Proof.
  unfold is_support, local_min. now rewrite andb_true_iff, !Rltb_true.
Qed.

Lemma is_resistance_spec (prices : list R) (i : nat) :
  is_resistance prices i = true <-> local_max prices i.
Proof.
  unfold is_resistance, local_max. now rewrite andb_true_iff, !Rgtb_true.
Qed.

End SupportResistanceLoop.

(** ** Mean, variance, extrema *)

Section MeanAndExtrema.

Import Engine Spec.

Lemma calculate_sma_nonempty (prices : list R) :
  prices <> [] -> calculate_sma prices = Ok (np_sum prices / INR (len prices)).
Proof.
  intros Hne. unfold calculate_sma.
  rewrite (proj2 (len_zero prices) Hne). now apply np_mean_nonempty.
Qed.

Lemma squares_nonempty (m : R) (prices : list R) :
  prices <> [] -> map (fun p => (p - m) ^ 2) prices <> [].
Proof. destruct prices; easy. Qed.

Lemma squares_nonneg (m : R) (prices : list R) :
  Forall (fun x => 0 <= x) (map (fun p => (p - m) ^ 2) prices).
Proof.
  apply Forall_forall. intros x Hx.
  apply in_map_iff in Hx. destruct Hx as [p [<- _]]. apply pow2_ge_0.
Qed.

(** The variance of a non-empty series is a quotient of a non-negative sum
    by a positive length, so the square root is defined. *)
Lemma calculate_volatility_nonempty (prices : list R) :
  prices <> [] ->
  let mean := np_sum prices / INR (len prices) in
  let variance :=
    np_sum (map (fun p => (p - mean) ^ 2) prices) / INR (len prices) in
  0 <= variance /\ calculate_volatility prices = Ok (sqrt variance).
Proof.
  intros Hne mean variance.
  assert (Hvar : 0 <= variance).
  { unfold variance, Rdiv. apply Rle_mult_inv_pos.
    - apply np_sum_nonneg, squares_nonneg.
    - now apply INR_len_pos. }
  split; [exact Hvar|].
  unfold calculate_volatility.
  rewrite (proj2 (len_zero prices) Hne).
  rewrite (np_mean_nonempty prices Hne). cbn [bind]. fold mean.
  rewrite (np_mean_nonempty _ (squares_nonempty mean prices Hne)). cbn [bind].
  replace (len (map (fun p => (p - mean) ^ 2) prices)) with (len prices)
    by (unfold len; now rewrite length_map).
  fold variance. now apply math_sqrt_nonneg.
Qed.

Lemma fold_min_spec (rest : list R) (x : R) :
  is_min_of (fold_left Rmin rest x) (x :: rest).
Proof.
  revert x. induction rest as [|y rest IH]; intros x.
  - split; [now left|]. intros z [<-|[]]. simpl. lra.
  - cbn [fold_left]. destruct (IH (Rmin x y)) as [Hin Hle]. split.
    + destruct Hin as [Hin|Hin]; [|now right; right].
      rewrite <- Hin. unfold Rmin. destruct (Rle_dec x y); [now left|now right; left].
    + intros z Hz.
      assert (Hxy : fold_left Rmin rest (Rmin x y) <= Rmin x y) by (apply Hle; now left).
      destruct Hz as [<-|[<-|Hz]].
      * pose proof (Rmin_l x y). lra.
      * pose proof (Rmin_r x y). lra.
      * apply Hle. now right.
Qed.

Lemma fold_max_spec (rest : list R) (x : R) :
  is_max_of (fold_left Rmax rest x) (x :: rest).
Proof.
  revert x. induction rest as [|y rest IH]; intros x.
  - split; [now left|]. intros z [<-|[]]. simpl. lra.
  - cbn [fold_left]. destruct (IH (Rmax x y)) as [Hin Hle]. split.
    + destruct Hin as [Hin|Hin]; [|now right; right].
      rewrite <- Hin. unfold Rmax. destruct (Rle_dec x y); [now right; left|now left].
    + intros z Hz.
      assert (Hxy : Rmax x y <= fold_left Rmax rest (Rmax x y)) by (apply Hle; now left).
      destruct Hz as [<-|[<-|Hz]].
      * pose proof (Rmax_l x y). lra.
      * pose proof (Rmax_r x y). lra.
      * apply Hle. now right.
Qed.

Lemma np_min_spec (a : list R) :
  a <> [] -> exists m, np_min a = Ok m /\ is_min_of m a.
Proof.
  destruct a as [|x rest]; [easy|]. intros _.
  exists (fold_left Rmin rest x). split; [reflexivity | apply fold_min_spec].
Qed.

Lemma np_max_spec (a : list R) :
  a <> [] -> exists m, np_max a = Ok m /\ is_max_of m a.
Proof.
  destruct a as [|x rest]; [easy|]. intros _.
  exists (fold_left Rmax rest x). split; [reflexivity | apply fold_max_spec].
Qed.

Lemma len_pos_nonempty {A : Type} (a : list A) :
  (0 <? len a)%nat = true <-> a <> [].
Proof. destruct a; simpl; split; intros; easy. Qed.

Lemma len_pos_empty {A : Type} (a : list A) :
  (0 <? len a)%nat = false <-> a = [].
Proof. destruct a; simpl; split; intros; easy. Qed.

End MeanAndExtrema.

(** ** Every function returns *)

Section Totality.

Import Engine Backend Spec Unrolled.

Lemma calculate_volatility_returns (prices : list R) :
  returns (calculate_volatility prices).
Proof.
  destruct prices as [|x rest] eqn:E.
  - now exists 0.
  - destruct (calculate_volatility_nonempty (x :: rest)) as [_ H]; [easy|].
    eexists. exact H.
Qed.

Lemma calculate_sma_returns (prices : list R) : returns (calculate_sma prices).
Proof.
  destruct prices as [|x rest] eqn:E.
  - now exists 0.
  - eexists. now apply calculate_sma_nonempty.
Qed.

Lemma calculate_ema_returns (prices : list R) (alpha : R) :
  returns (calculate_ema prices alpha).
Proof.
  destruct prices as [|x rest] eqn:E.
  - now exists 0.
  - eexists. now apply calculate_ema_nonempty.
Qed.

Lemma calculate_rsi_short (prices : list R) :
  (len prices < 2)%nat -> calculate_rsi prices = Ok 50.
Proof.
  intros H. unfold calculate_rsi. apply Nat.ltb_lt in H. now rewrite H.
Qed.

Lemma calculate_rsi_returns (prices : list R) : returns (calculate_rsi prices).
Proof.
  destruct (Nat.lt_ge_cases (len prices) 2) as [H|H].
  - eexists. now apply calculate_rsi_short.
  - eexists. now apply calculate_rsi_formula.
Qed.

Lemma find_support_resistance_returns (prices : list R) :
  returns (find_support_resistance prices).
Proof. eexists. apply find_support_resistance_filter. Qed.

Lemma risk_ratio_of_cases (vol sma : R) :
  (sma > 0 /\ risk_ratio_of vol sma = Ok (vol / sma))
  \/ (sma <= 0 /\ risk_ratio_of vol sma = Ok 0).
Proof.
  unfold risk_ratio_of. destruct (Rgtb sma 0) eqn:E.
  - apply Rgtb_true in E. left. split; [exact E|]. apply div_nonzero. lra.
  - apply Rgtb_false in E. now right.
Qed.

Lemma classify_eval (vol sma ema rsi : R) :
  exists ratio,
    risk_ratio_of vol sma = Ok ratio /\
    classify vol sma ema rsi
    = Ok {| trend := trend_of ema sma;
            momentum_status := momentum_of rsi;
            risk_ratio := ratio;
            risk := risk_of ratio;
            final_signal := signal_of (trend_of ema sma) rsi (risk_of ratio) |}.
Proof.
  unfold classify.
  destruct (risk_ratio_of_cases vol sma) as [[_ H]|[_ H]]; rewrite H;
    eexists; split; reflexivity.
Qed.

Lemma classify_returns (vol sma ema rsi : R) : returns (classify vol sma ema rsi).
Proof.
  destruct (classify_eval vol sma ema rsi) as [ratio [_ H]]. eexists. exact H.
Qed.

(** The indicator block of [analyze_stock] on a non-empty series: every
    step returns, and the record holds the values of the steps. *)
Lemma analyze_stock_nonempty (prices : list R) :
  prices <> [] ->
  exists supports resistances an,
    find_support_resistance prices = Ok (supports, resistances) /\
    analyze_stock prices = Ok (Some an) /\
    calculate_volatility prices = Ok (vol an) /\
    calculate_sma prices = Ok (sma an) /\
    calculate_ema prices 0.1 = Ok (ema an) /\
    calculate_rsi prices = Ok (rsi an) /\
    np_min (if (0 <? len supports)%nat then supports else prices)
      = Ok (support_level an) /\
    np_max (if (0 <? len resistances)%nat then resistances else prices)
      = Ok (resistance_level an) /\
    classify (vol an) (sma an) (ema an) (rsi an) = Ok (signals an).
Proof.
  intros Hne. unfold analyze_stock.
  rewrite (proj2 (len_zero prices) Hne).
  destruct (calculate_volatility_returns prices) as [v Hv].
  destruct (calculate_sma_returns prices) as [s Hs].
  destruct (calculate_ema_returns prices 0.1) as [e He].
  destruct (calculate_rsi_returns prices) as [r Hr].
  destruct (find_support_resistance_returns prices) as [[sup res] Hsr].
  destruct (classify_returns v s e r) as [c Hc].
  rewrite Hv; cbn [bind]. rewrite Hs; cbn [bind]. rewrite He; cbn [bind].
  rewrite Hr; cbn [bind]. rewrite Hsr; cbn [bind].
  assert (Hmin : exists m,
    np_min (if (0 <? len sup)%nat then sup else prices) = Ok m).
  { destruct (0 <? len sup)%nat eqn:E.
    - apply len_pos_nonempty in E.
      destruct (np_min_spec sup E) as [m [Hm _]]. now exists m.
    - destruct (np_min_spec prices Hne) as [m [Hm _]]. now exists m. }
  assert (Hmax : exists m,
    np_max (if (0 <? len res)%nat then res else prices) = Ok m).
  { destruct (0 <? len res)%nat eqn:E.
    - apply len_pos_nonempty in E.
      destruct (np_max_spec res E) as [m [Hm _]]. now exists m.
    - destruct (np_max_spec prices Hne) as [m [Hm _]]. now exists m. }
  destruct Hmin as [lo Hlo], Hmax as [hi Hhi].
  exists sup, res.
  exists {| vol := v; sma := s; ema := e; rsi := r; support_level := lo;
            resistance_level := hi; signals := c |}.
  cbn [vol sma ema rsi support_level resistance_level signals].
  repeat split; try assumption.
  replace (if (0 <? len sup)%nat then np_min sup else np_min prices)
    with (Ok lo) by (rewrite <- Hlo; now destruct (0 <? len sup)%nat).
  cbn [bind].
  replace (if (0 <? len res)%nat then np_max res else np_max prices)
    with (Ok hi) by (rewrite <- Hhi; now destruct (0 <? len res)%nat).
  cbn [bind]. rewrite Hc. reflexivity.
Qed.


End Totality.

(** Decides the comparisons of the model on numerals. *)
Ltac decide_cmp :=
  repeat match goal with
  | |- context [Rgtb ?x ?y] =>
      first [ rewrite (proj2 (Rgtb_true x y)) by lra
            | rewrite (proj2 (Rgtb_false x y)) by lra ]
  | |- context [Rltb ?x ?y] =>
      first [ rewrite (proj2 (Rltb_true x y)) by lra
            | rewrite (proj2 (Rltb_false x y)) by lra ]
  | |- context [Reqb ?x ?y] =>
      first [ rewrite (proj2 (Reqb_true x y)) by lra
            | rewrite (proj2 (Reqb_false x y)) by lra ]
  end.

(** ** The functions on the specification's sample inputs *)

Section Samples.

Import Engine Unrolled Spec.

Example find_support_resistance_1_3_2 :
  find_support_resistance [1; 3; 2] = Ok ([], [3]).
Proof.
  rewrite find_support_resistance_filter.
  unfold interior_indices, range, values_at, is_support, is_resistance.
  cbn [len List.length Nat.sub seq filter nth Nat.add].
  decide_cmp. reflexivity.
Qed.

Example find_support_resistance_two_points (a b : R) :
  find_support_resistance [a; b] = Ok ([], []).
Proof. reflexivity. Qed.

Example calculate_rsi_one_point (x : R) : calculate_rsi [x] = Ok 50.
Proof. reflexivity. Qed.

Example calculate_sma_1_2_3 : calculate_sma [1; 2; 3] = Ok 2.
Proof.
  rewrite calculate_sma_nonempty by easy.
  unfold np_sum. cbn [fold_left len List.length INR]. f_equal. lra.
Qed.

Example empty_series_defaults :
  calculate_volatility [] = Ok 0 /\ calculate_sma [] = Ok 0 /\
  calculate_ema [] default_alpha = Ok 0.
Proof. repeat split. Qed.

End Samples.

(** ** Relative strength index *)

Section RsiClaims.

Import Engine Spec Unrolled.

(** C3.  On a series of at least two points the loop of [calculate_rsi]
    ends with [gain] the sum of the positive consecutive deltas and [loss]
    the sum of the magnitudes of the negative ones; the function returns
    100 when that loss is 0 and [100 - 100 / (1 + gain / loss)] otherwise.
    On a series of fewer than two points it returns 50. *)
Theorem calculate_rsi_spec (prices : list R) :
  ((2 <= len prices)%nat ->
     rsi_loop prices = Ok (total_gain prices, total_loss prices) /\
     (total_loss prices = 0 -> calculate_rsi prices = Ok 100) /\
     (total_loss prices <> 0 ->
        calculate_rsi prices
        = Ok (100 - 100 / (1 + total_gain prices / total_loss prices)))) /\
  ((len prices < 2)%nat -> calculate_rsi prices = Ok 50).
Proof.
  split.
  - intros Hlen. split; [apply rsi_loop_totals|].
    rewrite (calculate_rsi_formula prices Hlen). unfold rsi_formula.
    split; intros H.
    + apply Reqb_true in H. now rewrite H.
    + apply Reqb_false in H. now rewrite H.
  - apply calculate_rsi_short.
Qed.

Lemma calculate_rsi_spec_witness :
  rsi_loop [1; 3; 2] = Ok (2, 1) /\
  calculate_rsi [1; 3; 2] = Ok (100 - 100 / (1 + 2 / 1)) /\
  calculate_rsi [5; 5] = Ok 100 /\
  calculate_rsi [7] = Ok 50.
Proof.
  assert (G : total_gain [1; 3; 2] = 2).
  { unfold total_gain, Rsum. cbn [deltas filter]. decide_cmp. cbn [fold_right]. lra. }
  assert (L : total_loss [1; 3; 2] = 1).
  { unfold total_loss, Rsum. cbn [deltas filter]. decide_cmp. cbn [map fold_right].
    rewrite Rabs_left by lra. lra. }
  assert (L5 : total_loss [5; 5] = 0).
  { unfold total_loss, Rsum. cbn [deltas filter]. decide_cmp. reflexivity. }
  destruct (calculate_rsi_spec [1; 3; 2]) as [H _].
  destruct (H ltac:(simpl; lia)) as (Hloop & _ & Hrsi).
  destruct (calculate_rsi_spec [5; 5]) as [H5 _].
  destruct (H5 ltac:(simpl; lia)) as (_ & Hflat & _).
  destruct (calculate_rsi_spec [7]) as [_ H7].
  rewrite G, L in Hloop. rewrite G, L in Hrsi.
  split; [|split; [|split]].
  - exact Hloop.
  - apply Hrsi. lra.
  - apply Hflat. exact L5.
  - apply H7. simpl. lia.
Defined.

End RsiClaims.

(** ** Exponential moving average *)

Section EmaClaims.

Import Engine Spec.

(** C7.  [calculate_ema] returns 0 on the empty series; on a non-empty
    series it returns the last term of the sequence seeded with the first
    price, [ema_0 = prices[0]], and continued in index order by
    [ema_i = alpha * prices[i] + (1 - alpha) * ema_(i-1)] for
    [i = 1 .. n-1]; on a one-element series [[p]] it returns [p] for
    every [alpha]. *)
Theorem calculate_ema_spec (prices : list R) (alpha : R) :
  (prices = [] -> calculate_ema prices alpha = Ok 0) /\
  (prices <> [] ->
     calculate_ema prices alpha = Ok (ema_at alpha prices (len prices - 1)) /\
     ema_at alpha prices 0 = nth 0 prices 0 /\
     forall i, (1 <= i < len prices)%nat ->
       ema_at alpha prices i
       = alpha * nth i prices 0 + (1 - alpha) * ema_at alpha prices (i - 1)) /\
  (forall p, calculate_ema [p] alpha = Ok p).
Proof.
  split; [now intros ->|]. split.
  - intros Hne. split; [now apply calculate_ema_nonempty|].
    split; [reflexivity|].
    intros [|i] Hi; [lia|]. cbn [ema_at].
    now replace (S i - 1)%nat with i by lia.
  - intros p. now rewrite calculate_ema_nonempty.
Qed.

Lemma calculate_ema_spec_witness :
  calculate_ema [] (1 / 2) = Ok 0 /\
  calculate_ema [4; 8] (1 / 2) = Ok (1 / 2 * 8 + (1 - 1 / 2) * 4).
Proof.
  destruct (calculate_ema_spec [] (1 / 2)) as (H0 & _).
  destruct (calculate_ema_spec [4; 8] (1 / 2)) as (_ & H & _).
  split.
  - now apply H0.
  - destruct H as (H & _); [easy | exact H].
Defined.

End EmaClaims.

(** ** Support and resistance detection *)

Section SupportResistanceClaims.

Import Engine Spec Unrolled.

Lemma seq_increasing (m k : nat) : StronglySorted lt (seq k m).
Proof.
  revert k. induction m as [|m IH]; intros k; cbn [seq]; constructor.
  - apply IH.
  - apply Forall_forall. intros i Hi. apply in_seq in Hi. lia.
Qed.

Lemma filter_increasing (f : nat -> bool) (l : list nat) :
  StronglySorted lt l -> StronglySorted lt (filter f l).
Proof.
  induction 1 as [|i l Hl IH Hi]; cbn [filter]; [constructor|].
  destruct (f i); [|exact IH].
  constructor; [exact IH|].
  apply Forall_forall. intros j Hj. apply filter_In in Hj.
  rewrite Forall_forall in Hi. now apply Hi.
Qed.

Lemma not_both (prices : list R) (i : nat) :
  ~ (local_min prices i /\ local_max prices i).
Proof. unfold local_min, local_max. lra. Qed.

(** C4.  [find_support_resistance] reports the values of the series at
    two lists of indices: an index is in the first iff it is interior
    ([1 <= i <= n-2]) and its value is strictly below both neighbours, in
    the second iff it is interior and its value is strictly above both
    neighbours.  Both index lists are strictly increasing (results in
    index order, each point at most once); no index is in both; an index
    whose value equals a neighbour's is in neither; and a series of fewer
    than three points gives two empty sequences. *)
Theorem find_support_resistance_spec (prices : list R) :
  exists si ri : list nat,
    find_support_resistance prices
    = Ok (values_at prices si, values_at prices ri) /\
    (forall i, In i si <-> interior prices i /\ local_min prices i) /\
    (forall i, In i ri <-> interior prices i /\ local_max prices i) /\
    StronglySorted lt si /\ StronglySorted lt ri /\
    (forall i, ~ (In i si /\ In i ri)) /\
    (forall i,
       nth i prices 0 = nth (i - 1) prices 0 \/
       nth i prices 0 = nth (i + 1) prices 0 ->
       ~ In i si /\ ~ In i ri) /\
    ((len prices < 3)%nat -> find_support_resistance prices = Ok ([], [])).
Proof.
  exists (filter (is_support prices) (interior_indices prices)),
         (filter (is_resistance prices) (interior_indices prices)).
  assert (Hs : forall i,
    In i (filter (is_support prices) (interior_indices prices))
    <-> interior prices i /\ local_min prices i).
  { intros i. now rewrite filter_In, in_interior_indices, is_support_spec. }
  assert (Hr : forall i,
    In i (filter (is_resistance prices) (interior_indices prices))
    <-> interior prices i /\ local_max prices i).
  { intros i. now rewrite filter_In, in_interior_indices, is_resistance_spec. }
  split; [apply find_support_resistance_filter|].
  split; [exact Hs|]. split; [exact Hr|].
  split; [apply filter_increasing, seq_increasing|].
  split; [apply filter_increasing, seq_increasing|].
  split; [|split].
  - intros i [H1 H2]. apply Hs in H1. apply Hr in H2.
    apply (not_both prices i). tauto.
  - intros i Heq. rewrite Hs, Hr. unfold local_min, local_max.
    split; intros [_ H]; lra.
  - intros Hlen. unfold find_support_resistance.
    apply Nat.ltb_lt in Hlen. now rewrite Hlen.
Qed.

Lemma find_support_resistance_spec_witness :
  find_support_resistance [1; 2] = Ok ([], []) /\
  exists si ri : list nat,
    find_support_resistance [1; 3; 2]
    = Ok (values_at [1; 3; 2] si, values_at [1; 3; 2] ri) /\
    ~ In 1%nat si /\ In 1%nat ri.
Proof.
  split.
  - destruct (find_support_resistance_spec [1; 2]) as (si & ri & H).
    apply H. simpl. lia.
  - destruct (find_support_resistance_spec [1; 3; 2])
      as (si & ri & Hres & Hs & Hr & _).
    exists si, ri. split; [exact Hres|]. split.
    + rewrite Hs. unfold local_min. simpl. lra.
    + apply Hr. unfold interior, local_max. simpl. split; [lia|lra].
Defined.

End SupportResistanceClaims.

(** ** Support and resistance levels *)

Section LevelClaims.

Import Engine Backend Spec Unrolled.

Lemma level_cases (prices : list R) :
  prices <> [] ->
  exists supports resistances an,
    find_support_resistance prices = Ok (supports, resistances) /\
    analyze_stock prices = Ok (Some an) /\
    is_min_of (support_level an)
      (if (0 <? len supports)%nat then supports else prices) /\
    is_max_of (resistance_level an)
      (if (0 <? len resistances)%nat then resistances else prices).
Proof.
  intros Hne.
  destruct (analyze_stock_nonempty prices Hne)
    as (sup & res & an & Hsr & Han & _ & _ & _ & _ & Hlo & Hhi & _).
  exists sup, res, an. split; [exact Hsr|]. split; [exact Han|]. split.
  - assert (Hpick : (if (0 <? len sup)%nat then sup else prices) <> []).
    { destruct (0 <? len sup)%nat eqn:E; [now apply len_pos_nonempty|exact Hne]. }
    destruct (np_min_spec _ Hpick) as [m [Hm Hmin]].
    rewrite Hlo in Hm. injection Hm as ->. exact Hmin.
  - assert (Hpick : (if (0 <? len res)%nat then res else prices) <> []).
    { destruct (0 <? len res)%nat eqn:E; [now apply len_pos_nonempty|exact Hne]. }
    destruct (np_max_spec _ Hpick) as [m [Hm Hmax]].
    rewrite Hhi in Hm. injection Hm as ->. exact Hmax.
Qed.

(** C5.  On a non-empty series [analyze_stock] returns a record whose
    [support_level] is the minimum of the detected supports when there is
    one, and the minimum of the whole series otherwise; and whose
    [resistance_level] is the maximum of the detected resistances when
    there is one, and the maximum of the whole series otherwise. *)
Theorem support_resistance_levels (prices : list R) :
  prices <> [] ->
  exists supports resistances an,
    find_support_resistance prices = Ok (supports, resistances) /\
    analyze_stock prices = Ok (Some an) /\
    (supports <> [] -> is_min_of (support_level an) supports) /\
    (supports = [] -> is_min_of (support_level an) prices) /\
    (resistances <> [] -> is_max_of (resistance_level an) resistances) /\
    (resistances = [] -> is_max_of (resistance_level an) prices).
Proof.
  intros Hne.
  destruct (level_cases prices Hne) as (sup & res & an & Hsr & Han & Hlo & Hhi).
  exists sup, res, an. split; [exact Hsr|]. split; [exact Han|].
  split; [|split; [|split]]; intros H.
  - apply len_pos_nonempty in H. now rewrite H in Hlo.
  - apply len_pos_empty in H. now rewrite H in Hlo.
  - apply len_pos_nonempty in H. now rewrite H in Hhi.
  - apply len_pos_empty in H. now rewrite H in Hhi.
Qed.

Lemma support_resistance_levels_witness :
  exists an,
    analyze_stock [1; 3; 2] = Ok (Some an) /\
    support_level an = 1 /\ resistance_level an = 3.
Proof.
  destruct (support_resistance_levels [1; 3; 2]) as
    (sup & res & an & Hsr & Han & _ & Hlo & Hhi & _); [easy|].
  assert (E : find_support_resistance [1; 3; 2] = Ok ([], [3])).
  { rewrite find_support_resistance_filter.
    unfold interior_indices, range, values_at, is_support, is_resistance.
    cbn [len List.length Nat.sub seq filter nth Nat.add].
    decide_cmp. reflexivity. }
  rewrite E in Hsr. injection Hsr as <- <-.
  exists an. split; [exact Han|]. split.
  - destruct (Hlo eq_refl) as [Hin Hle].
    assert (support_level an <= 1) by (apply Hle; simpl; tauto).
    simpl in Hin. lra.
  - destruct Hhi as [Hin _]; [easy|]. simpl in Hin. lra.
Defined.

(** C9.  On a non-empty series every value reported by
    [find_support_resistance] is an element of the series, and so are the
    [support_level] and [resistance_level] of [analyze_stock]. *)
Theorem levels_are_prices (prices : list R) :
  prices <> [] ->
  exists supports resistances an,
    find_support_resistance prices = Ok (supports, resistances) /\
    analyze_stock prices = Ok (Some an) /\
    (forall x, In x supports -> In x prices) /\
    (forall x, In x resistances -> In x prices) /\
    In (support_level an) prices /\
    In (resistance_level an) prices.
Proof.
  intros Hne.
  destruct (level_cases prices Hne) as (sup & res & an & Hsr & Han & Hlo & Hhi).
  assert (Hval : forall f x,
    In x (values_at prices (filter f (interior_indices prices))) -> In x prices).
  { intros f x Hx. unfold values_at in Hx. apply in_map_iff in Hx.
    destruct Hx as (i & <- & Hi). apply filter_In in Hi. destruct Hi as [Hi _].
    apply in_interior_indices in Hi. apply nth_In. unfold interior, len in Hi. lia. }
  rewrite find_support_resistance_filter in Hsr. injection Hsr as <- <-.
  eexists _, _, an. split; [apply find_support_resistance_filter|].
  split; [exact Han|].
  split; [apply Hval|]. split; [apply Hval|]. split.
  - destruct Hlo as [Hin _].
    destruct (0 <? len _)%nat in Hin; [now apply Hval in Hin | exact Hin].
  - destruct Hhi as [Hin _].
    destruct (0 <? len _)%nat in Hin; [now apply Hval in Hin | exact Hin].
Qed.

Lemma levels_are_prices_witness :
  exists an,
    analyze_stock [4; 2; 6] = Ok (Some an) /\
    In (support_level an) [4; 2; 6] /\ In (resistance_level an) [4; 2; 6].
Proof.
  destruct (levels_are_prices [4; 2; 6]) as
    (sup & res & an & _ & Han & _ & _ & Hlo & Hhi); [easy|].
  exists an. split; [exact Han|]. split; [exact Hlo | exact Hhi].
Defined.

End LevelClaims.

(** ** Totality of the core *)

Section TotalityClaims.

Import Engine Backend Spec.



End TotalityClaims.

(** ** Monotone series *)

Section MonotoneClaims.

Import Engine Spec Unrolled.

Lemma filter_none {A : Type} (f : A -> bool) (l : list A) :
  (forall x, In x l -> f x = false) -> filter f l = [].
Proof.
  induction l as [|x l IH]; intros H; [reflexivity|].
  cbn [filter]. rewrite (H x) by now left.
  apply IH. intros y Hy. apply H. now right.
Qed.

(** Every delta is the difference of two consecutive prices. *)
Lemma deltas_nth (prices : list R) (d : R) :
  In d (deltas prices) ->
  exists i, (S i < len prices)%nat /\ d = nth (S i) prices 0 - nth i prices 0.
Proof.
  induction prices as [|x [|y rest] IH]; [easy | easy |].
  change (deltas (x :: y :: rest)) with (y - x :: deltas (y :: rest)).
  intros [<-|Hd].
  - exists 0%nat. split; [simpl; lia | reflexivity].
  - destruct (IH Hd) as (i & Hi & ->).
    exists (S i). split; [simpl in *; lia | reflexivity].
Qed.

Lemma increasing_no_loss (prices : list R) :
  increasing prices -> total_loss prices = 0.
Proof.
  intros Hinc. unfold total_loss. rewrite filter_none; [reflexivity|].
  intros d Hd. destruct (deltas_nth prices d Hd) as (i & Hi & ->).
  apply Rltb_false. specialize (Hinc i Hi). lra.
Qed.

Lemma increasing_no_extremum (prices : list R) :
  increasing prices -> find_support_resistance prices = Ok ([], []).
Proof.
  intros Hinc. rewrite find_support_resistance_filter.
  rewrite !filter_none; [reflexivity| |];
    intros i Hi; apply in_interior_indices in Hi; destruct Hi as [H1 H2].
  - unfold is_resistance. apply andb_false_iff. right. apply Rgtb_false.
    replace (i + 1)%nat with (S i) by lia. apply Hinc. lia.
  - unfold is_support. apply andb_false_iff. left. apply Rltb_false.
    specialize (Hinc (i - 1)%nat).
    replace (S (i - 1)) with i in Hinc by lia. apply Hinc. lia.
Qed.

(** C8.  On a series of at least two points in which no price is below
    the one before it (in particular on a strictly increasing one),
    [calculate_rsi] returns 100 and [find_support_resistance] returns two
    empty sequences. *)
Theorem increasing_series (prices : list R) :
  (2 <= len prices)%nat -> increasing prices ->
  calculate_rsi prices = Ok 100 /\
  find_support_resistance prices = Ok ([], []).
Proof.
  intros Hlen Hinc. split.
  - rewrite (calculate_rsi_formula prices Hlen), (increasing_no_loss prices Hinc).
    unfold rsi_formula. decide_cmp. reflexivity.
  - now apply increasing_no_extremum.
Qed.

Lemma increasing_series_witness :
  calculate_rsi [1; 2; 2; 5] = Ok 100 /\
  find_support_resistance [1; 2; 2; 5] = Ok ([], []).
Proof.
  apply (increasing_series [1; 2; 2; 5]).
  - simpl. lia.
  - intros [|[|[|i]]] Hi; simpl in *; try lra; lia.
Defined.

Lemma decreasing_no_gain (prices : list R) :
  strictly_decreasing prices -> total_gain prices = 0.
Proof.
  intros Hdec. unfold total_gain. rewrite filter_none; [reflexivity|].
  intros d Hd. destruct (deltas_nth prices d Hd) as (i & Hi & ->).
  apply Rgtb_false. specialize (Hdec i Hi). lra.
Qed.

Lemma decreasing_some_loss (prices : list R) :
  (2 <= len prices)%nat -> strictly_decreasing prices -> 0 < total_loss prices.
Proof.
  destruct prices as [|p [|x rest]]; [simpl; lia | simpl; lia |].
  intros _ Hdec. rewrite total_loss_cons.
  pose proof (total_loss_nonneg (x :: rest)) as Hrest.
  assert (Hpx : x < p) by (apply (Hdec 0%nat); simpl; lia).
  assert (E : Rgtb (x - p) 0 = false) by (apply Rgtb_false; lra).
  rewrite E. lra.
Qed.

(** C10.  On a strictly decreasing series of at least two points the gain
    is 0 and the loss is positive, and [calculate_rsi] returns 0. *)
Theorem decreasing_series (prices : list R) :
  (2 <= len prices)%nat -> strictly_decreasing prices ->
  total_gain prices = 0 /\ 0 < total_loss prices /\
  calculate_rsi prices = Ok 0.
Proof.
  intros Hlen Hdec.
  pose proof (decreasing_no_gain prices Hdec) as Hg.
  pose proof (decreasing_some_loss prices Hlen Hdec) as Hl.
  split; [exact Hg|]. split; [exact Hl|].
  rewrite (calculate_rsi_formula prices Hlen), Hg. unfold rsi_formula.
  assert (E : Reqb (total_loss prices) 0 = false) by (apply Reqb_false; lra).
  rewrite E. f_equal. unfold Rdiv. rewrite Rmult_0_l, Rplus_0_r, Rinv_1. lra.
Qed.

Lemma decreasing_series_witness : calculate_rsi [9; 4; 1] = Ok 0.
Proof.
  apply (decreasing_series [9; 4; 1]).
  - simpl. lia.
  - intros [|[|i]] Hi; simpl in *; try lra; lia.
Defined.

End MonotoneClaims.

(** ** Constant series *)

Section ConstantClaims.

Import Engine Spec Unrolled.

Lemma constant_tail (v x : R) (rest : list R) :
  constant v (x :: rest) -> x = v /\ constant v rest.
Proof.
  intros H. split; [apply H; now left|]. intros y Hy. apply H. now right.
Qed.

Lemma constant_nth (v : R) (prices : list R) (i : nat) :
  constant v prices -> (i < len prices)%nat -> nth i prices 0 = v.
Proof. intros H Hi. apply H. now apply nth_In. Qed.

Lemma constant_sum (v : R) (prices : list R) :
  constant v prices -> np_sum prices = INR (len prices) * v.
Proof.
  induction prices as [|x rest IH]; intros H.
  - unfold np_sum. simpl. lra.
  - destruct (constant_tail v x rest H) as [-> Hrest].
    rewrite np_sum_cons, (IH Hrest).
    unfold len. cbn [List.length]. rewrite S_INR. lra.
Qed.

Lemma constant_squares (v : R) (prices : list R) :
  constant v prices -> np_sum (map (fun p => (p - v) ^ 2) prices) = 0.
Proof.
  induction prices as [|x rest IH]; intros H.
  - reflexivity.
  - destruct (constant_tail v x rest H) as [-> Hrest].
    cbn [map]. rewrite np_sum_cons, (IH Hrest). lra.
Qed.

Lemma constant_mean (v : R) (prices : list R) :
  prices <> [] -> constant v prices -> np_sum prices / INR (len prices) = v.
Proof.
  intros Hne H. rewrite (constant_sum v prices H).
  pose proof (INR_len_pos prices Hne). field. lra.
Qed.

Lemma constant_ema_at (alpha v : R) (prices : list R) (i : nat) :
  constant v prices -> (i < len prices)%nat -> ema_at alpha prices i = v.
Proof.
  intros H. induction i as [|i IH]; intros Hi.
  - now apply constant_nth.
  - cbn [ema_at]. rewrite IH by lia. rewrite (constant_nth v prices (S i) H Hi). lra.
Qed.





End ConstantClaims.

(** ** The signal classifier *)

Section ClassifierClaims.

Import Backend.

Open Scope string_scope.

Lemma trend_of_cases (ema sma : R) :
  (trend_of ema sma = "bullish" /\ ema > 1.01 * sma)
  \/ (trend_of ema sma = "bearish" /\ ~ ema > 1.01 * sma /\ ema < 0.99 * sma)
  \/ (trend_of ema sma = "neutral" /\ ~ ema > 1.01 * sma /\ ~ ema < 0.99 * sma).
Proof.
  unfold trend_of.
  destruct (Rgtb ema (1.01 * sma)) eqn:Hup.
  - apply Rgtb_true in Hup. now left.
  - apply Rgtb_false in Hup. right.
    destruct (Rltb ema (0.99 * sma)) eqn:Hdown.
    + apply Rltb_true in Hdown. left. split; [reflexivity|]. split; lra.
    + apply Rltb_false in Hdown. right. split; [reflexivity|]. split; lra.
Qed.

Lemma risk_of_cases (ratio : R) :
  (risk_of ratio = "High Risk" /\ ratio > 0.08)
  \/ (risk_of ratio = "Medium Risk" /\ ~ ratio > 0.08 /\ ratio > 0.04)
  \/ (risk_of ratio = "Low Risk" /\ ~ ratio > 0.08 /\ ~ ratio > 0.04).
Proof.
  unfold risk_of.
  destruct (Rgtb ratio 0.08) eqn:Hhigh.
  - apply Rgtb_true in Hhigh. now left.
  - apply Rgtb_false in Hhigh. right.
    destruct (Rgtb ratio 0.04) eqn:Hmed.
    + apply Rgtb_true in Hmed. left. split; [reflexivity|]. split; lra.
    + apply Rgtb_false in Hmed. right. split; [reflexivity|]. split; lra.
Qed.

Lemma signal_of_cases (trend : string) (rsi : R) (risk : string) :
  (signal_of trend rsi risk = "BUY"
   /\ trend = "bullish" /\ rsi < 60 /\ risk <> "High Risk")
  \/ (signal_of trend rsi risk = "SELL"
      /\ ~ (trend = "bullish" /\ rsi < 60 /\ risk <> "High Risk")
      /\ trend = "bearish" /\ rsi > 40)
  \/ (signal_of trend rsi risk = "HOLD"
      /\ ~ (trend = "bullish" /\ rsi < 60 /\ risk <> "High Risk")
      /\ ~ (trend = "bearish" /\ rsi > 40)).
Proof.
  unfold signal_of.
  destruct (String.eqb_spec trend "bullish") as [Hbull|Hbull];
  destruct (Rltb rsi 60) eqn:H60;
  destruct (String.eqb_spec risk "High Risk") as [Hhigh|Hhigh];
  destruct (String.eqb_spec trend "bearish") as [Hbear|Hbear];
  destruct (Rgtb rsi 40) eqn:H40;
  cbn [andb negb];
  try apply Rltb_true in H60; try apply Rltb_false in H60;
  try apply Rgtb_true in H40; try apply Rgtb_false in H40;
  try (left; split; [reflexivity|]; tauto);
  try (right; left; split; [reflexivity|]; split; [|tauto];
       intros (? & ? & ?); try tauto; try lra; congruence);
  right; right; (split; [reflexivity|]); split;
    intros ?; intuition (try lra; try congruence).
Qed.

(** C1, as the code has it.  For all real [vol], [sma], [ema], [rsi] the
    classifier returns a record in which: the trend is bullish iff
    [ema > 1.01 * sma]; bearish iff [ema < 0.99 * sma] and not
    [ema > 1.01 * sma] (when [sma >= 0] the second test cannot hold
    together with the first, and bearish is just [ema < 0.99 * sma]);
    neutral otherwise.  The risk ratio is [vol / sma] when [sma > 0] and 0
    otherwise; the risk is high iff the ratio exceeds 0.08, medium iff it
    exceeds 0.04 and is not high, low otherwise.  The signal is BUY iff
    the trend is bullish, [rsi < 60] and the risk is not high; SELL iff
    the trend is bearish and [rsi > 40]; HOLD otherwise. *)
Theorem classify_table (vol sma ema rsi : R) :
  exists c,
    classify vol sma ema rsi = Ok c /\
    (trend c = "bullish" <-> ema > 1.01 * sma) /\
    (trend c = "bearish" <-> ema < 0.99 * sma /\ ~ ema > 1.01 * sma) /\
    (trend c = "neutral" <-> ~ ema > 1.01 * sma /\ ~ ema < 0.99 * sma) /\
    (0 <= sma -> (trend c = "bearish" <-> ema < 0.99 * sma)) /\
    (sma > 0 -> risk_ratio c = vol / sma) /\
    (~ sma > 0 -> risk_ratio c = 0) /\
    (risk c = "High Risk" <-> risk_ratio c > 0.08) /\
    (risk c = "Medium Risk" <-> risk_ratio c > 0.04 /\ ~ risk_ratio c > 0.08) /\
    (risk c = "Low Risk" <-> ~ risk_ratio c > 0.04) /\
    (final_signal c = "BUY"
     <-> trend c = "bullish" /\ rsi < 60 /\ risk c <> "High Risk") /\
    (final_signal c = "SELL" <-> trend c = "bearish" /\ rsi > 40) /\
    (final_signal c = "HOLD"
     <-> ~ (trend c = "bullish" /\ rsi < 60 /\ risk c <> "High Risk")
         /\ ~ (trend c = "bearish" /\ rsi > 40)).
Proof.
  destruct (classify_eval vol sma ema rsi) as (ratio & Hratio & Hc).
  eexists. split; [exact Hc|].
  cbn [trend risk_ratio risk final_signal].
  split; [|split; [|split; [|split]]].
  - destruct (trend_of_cases ema sma) as [[-> H]|[[-> H]|[-> H]]];
      split; intros; try discriminate; tauto.
  - destruct (trend_of_cases ema sma) as [[-> H]|[[-> H]|[-> H]]];
      split; intros; try discriminate; tauto.
  - destruct (trend_of_cases ema sma) as [[-> H]|[[-> H]|[-> H]]];
      split; intros; try discriminate; tauto.
  - intros Hsma.
    destruct (trend_of_cases ema sma) as [[-> H]|[[-> H]|[-> H]]];
      split; intros; try discriminate; try tauto; lra.
  - split; [|split].
    + intros Hpos.
      destruct (risk_ratio_of_cases vol sma) as [[_ H]|[H _]]; [|lra].
      rewrite H in Hratio. now injection Hratio as <-.
    + intros Hneg.
      destruct (risk_ratio_of_cases vol sma) as [[H _]|[_ H]]; [tauto|].
      rewrite H in Hratio. now injection Hratio as <-.
    + split; [|split; [|split; [|split; [|split]]]].
      * destruct (risk_of_cases ratio) as [[-> H]|[[-> H]|[-> H]]];
          split; intros; try discriminate; tauto.
      * destruct (risk_of_cases ratio) as [[-> H]|[[-> H]|[-> H]]];
          split; intros; try discriminate; tauto.
      * destruct (risk_of_cases ratio) as [[-> H]|[[-> H]|[-> H]]];
          split; intros; try discriminate; try tauto; lra.
      * destruct (signal_of_cases (trend_of ema sma) rsi (risk_of ratio))
          as [[-> H]|[[-> H]|[-> H]]];
          split; intros; try discriminate; tauto.
      * destruct (signal_of_cases (trend_of ema sma) rsi (risk_of ratio))
          as [[-> H]|[[-> H]|[-> H]]];
          split; intros; try discriminate; try tauto.
        exfalso. destruct H as (Hbull & _).
        match goal with
        | Hb : _ = "bearish" /\ _ |- _ => destruct Hb as [Hbear _]
        end.
        rewrite Hbull in Hbear. discriminate.
      * destruct (signal_of_cases (trend_of ema sma) rsi (risk_of ratio))
          as [[-> H]|[[-> H]|[-> H]]];
          split; intros; try discriminate; tauto.
Qed.

(** The specification's own example: [ema = 110], [sma = 100],
    [rsi = 55], [volatility = 3]. *)
Lemma classify_table_witness :
  exists c,
    classify 3 100 110 55 = Ok c /\
    trend c = "bullish" /\ risk c = "Low Risk" /\ final_signal c = "BUY".
Proof.
  destruct (classify_table 3 100 110 55)
    as (c & Hc & Hbull & _ & _ & _ & Hratio & _ & _ & _ & Hlow & Hbuy & _).
  exists c. split; [exact Hc|].
  assert (Ht : trend c = "bullish") by (apply Hbull; lra).
  assert (Hr : risk c = "Low Risk").
  { apply Hlow. rewrite Hratio by lra. lra. }
  split; [exact Ht|]. split; [exact Hr|].
  apply Hbuy. split; [exact Ht|]. split; [lra|]. rewrite Hr. discriminate.
Defined.

(** C1 as stated fails where the two trend tests overlap: with
    [sma = ema = -100] the test [ema < 0.99 * sma] holds, yet the first
    branch of line 188 is taken and the trend is bullish, not bearish. *)
Lemma classify_bearish_counterexample :
  exists c,
    classify 1 (-100) (-100) 50 = Ok c /\
    -100 < 0.99 * -100 /\
    trend c = "bullish" /\ trend c <> "bearish".
Proof.
  eexists. unfold classify, risk_ratio_of. decide_cmp. cbn [bind].
  split; [reflexivity|]. split; [lra|].
  cbn [trend]. unfold trend_of. decide_cmp. split; [reflexivity | discriminate].
Qed.

End ClassifierClaims.

(** * Further properties of the engine *)

(** ** The RSI as a quotient *)

Section RsiQuotient.

Import Engine Spec Unrolled.

Lemma rsi_formula_quotient (gain loss : R) :
  0 <= gain -> 0 < loss -> rsi_formula gain loss = 100 * gain / (gain + loss).
Proof.
  intros Hg Hl. unfold rsi_formula.
  assert (E : Reqb loss 0 = false) by (apply Reqb_false; lra).
  rewrite E. field. split; lra.
Qed.

End RsiQuotient.

(** ** The extreme smoothing factors *)

Section AverageBounds.

Import Engine Spec.

Lemma nth_last (prices : list R) :
  nth (len prices - 1) prices 0 = last prices 0.
Proof.
  induction prices as [|p [|x rest] IH]; [reflexivity | reflexivity |].
  change (last (p :: x :: rest) 0) with (last (x :: rest) 0).
  rewrite <- IH. unfold len. cbn [List.length].
  now replace (S (S (List.length rest)) - 1)%nat
    with (S (S (List.length rest) - 1)) by lia.
Qed.

Lemma ema_at_one (prices : list R) (i : nat) :
  ema_at 1 prices i = nth i prices 0.
Proof. destruct i as [|i]; [reflexivity|]. cbn [ema_at]. lra. Qed.

Lemma ema_at_zero (prices : list R) (i : nat) :
  ema_at 0 prices i = nth 0 prices 0.
Proof. induction i as [|i IH]; [reflexivity|]. cbn [ema_at]. rewrite IH. lra. Qed.

(** X6.  The two extreme smoothing factors: with [alpha = 1] the EMA of a
    non-empty series is its last price, with [alpha = 0] its first. *)
Theorem calculate_ema_extremes (prices : list R) :
  prices <> [] ->
  calculate_ema prices 1 = Ok (last prices 0) /\
  calculate_ema prices 0 = Ok (hd 0 prices).
Proof.
  intros Hne. rewrite !calculate_ema_nonempty by assumption.
  rewrite ema_at_one, ema_at_zero, nth_last.
  split; [reflexivity|]. now destruct prices.
Qed.

Lemma calculate_ema_extremes_witness :
  calculate_ema [2; 8; 5] 1 = Ok 5 /\ calculate_ema [2; 8; 5] 0 = Ok 2.
Proof. apply (calculate_ema_extremes [2; 8; 5]). easy. Defined.

End AverageBounds.

(** ** How many supports and resistances there can be *)

Section ExtremaCounts.

Import Engine Spec Unrolled.

Lemma exclusive_filters {A : Type} (f g : A -> bool) (l : list A) :
  (forall x, f x && g x = false) ->
  (len (filter f l) + len (filter g l) <= len l)%nat.
Proof.
  intros Hfg. induction l as [|x l IH]; [simpl; lia|].
  cbn [filter]. specialize (Hfg x).
  destruct (f x), (g x); try discriminate; unfold len in *; simpl; lia.
Qed.

Lemma spaced_filter (f : nat -> bool) (m k : nat) :
  (forall i, f i = true -> f (S i) = false) ->
  (2 * len (filter f (seq k m)) <= m + (if f k then 1 else 0))%nat.
Proof.
  intros Hgap. revert k. induction m as [|m IH]; intros k.
  - simpl. lia.
  - cbn [seq filter]. specialize (IH (S k)).
    destruct (f k) eqn:Ek.
    + rewrite (Hgap k Ek) in IH. unfold len in *. cbn [List.length]. lia.
    + destruct (f (S k)); unfold len in *; lia.
Qed.

Lemma support_not_resistance (prices : list R) (i : nat) :
  is_support prices i && is_resistance prices i = false.
Proof.
  destruct (is_support prices i) eqn:Es, (is_resistance prices i) eqn:Er;
    try reflexivity.
  apply is_support_spec in Es. apply is_resistance_spec in Er.
  exfalso. apply (not_both prices i). tauto.
Qed.

Lemma supports_spaced (prices : list R) (i : nat) :
  is_support prices i = true -> is_support prices (S i) = false.
Proof.
  intros H. apply is_support_spec in H. destruct H as [_ H].
  unfold is_support. apply andb_false_iff. left. apply Rltb_false.
  replace (S i - 1)%nat with i by lia.
  replace (i + 1)%nat with (S i) in H by lia. lra.
Qed.

Lemma resistances_spaced (prices : list R) (i : nat) :
  is_resistance prices i = true -> is_resistance prices (S i) = false.
Proof.
  intros H. apply is_resistance_spec in H. destruct H as [_ H].
  unfold is_resistance. apply andb_false_iff. left. apply Rgtb_false.
  replace (S i - 1)%nat with i by lia.
  replace (i + 1)%nat with (S i) in H by lia. lra.
Qed.

(** X8.  Supports and resistances together are at most the [n - 2] interior
    points, and since two neighbouring points are never both supports
    (nor both resistances) each kind alone has at most [(n - 1) / 2]
    entries. *)
Theorem extrema_counts (prices : list R) :
  exists sup res,
    find_support_resistance prices = Ok (sup, res) /\
    (len sup + len res <= len prices - 2)%nat /\
    (2 * len sup <= len prices - 1)%nat /\
    (2 * len res <= len prices - 1)%nat.
Proof.
  eexists _, _. split; [apply find_support_resistance_filter|].
  unfold values_at. unfold len at 1 2 4 6. rewrite !length_map.
  fold (len (filter (is_support prices) (interior_indices prices))).
  fold (len (filter (is_resistance prices) (interior_indices prices))).
  assert (Hint : len (interior_indices prices) = (len prices - 2)%nat).
  { unfold interior_indices, range, len. rewrite length_seq. lia. }
  split; [|split].
  - rewrite <- Hint. apply exclusive_filters, support_not_resistance.
  - pose proof (spaced_filter (is_support prices) (len prices - 1 - 1) 1
                  (supports_spaced prices)) as H.
    unfold interior_indices, range.
    destruct (is_support prices 1); lia.
  - pose proof (spaced_filter (is_resistance prices) (len prices - 1 - 1) 1
                  (resistances_spaced prices)) as H.
    unfold interior_indices, range.
    destruct (is_resistance prices 1); lia.
Qed.

End ExtremaCounts.

(** * Further properties of the analysis *)

Section AnalysisFacts.

Import Engine Backend Spec Unrolled.

Open Scope string_scope.

(** The record returned on a non-empty series, field by field. *)
Lemma analysis_fields (prices : list R) :
  prices <> [] ->
  exists an ratio,
    analyze_stock prices = Ok (Some an) /\
    calculate_volatility prices = Ok (vol an) /\
    calculate_sma prices = Ok (sma an) /\
    calculate_ema prices 0.1 = Ok (ema an) /\
    calculate_rsi prices = Ok (rsi an) /\
    In (support_level an) prices /\
    In (resistance_level an) prices /\
    risk_ratio_of (vol an) (sma an) = Ok ratio /\
    trend (signals an) = trend_of (ema an) (sma an) /\
    momentum_status (signals an) = momentum_of (rsi an) /\
    risk_ratio (signals an) = ratio /\
    risk (signals an) = risk_of ratio /\
    final_signal (signals an)
    = signal_of (trend_of (ema an) (sma an)) (rsi an) (risk_of ratio).
Proof.
  intros Hne.
  destruct (analyze_stock_nonempty prices Hne)
    as (sup & res & an & Hsr & Han & Hv & Hs & He & Hr & Hlo & Hhi & Hc).
  destruct (classify_eval (vol an) (sma an) (ema an) (rsi an))
    as (ratio & Hratio & Hc').
  rewrite Hc in Hc'. injection Hc' as Hsig.
  assert (Hval : forall g x,
    In x (values_at prices (filter g (interior_indices prices))) -> In x prices).
  { intros g x Hx. unfold values_at in Hx. apply in_map_iff in Hx.
    destruct Hx as (i & <- & Hi). apply filter_In in Hi. destruct Hi as [Hi _].
    apply in_interior_indices in Hi. apply nth_In. unfold interior, len in Hi. lia. }
  destruct (level_cases prices Hne)
    as (sup' & res' & an' & Hsr' & Han' & [Hlo_in _] & [Hhi_in _]).
  rewrite Han in Han'. injection Han' as <-.
  rewrite Hsr in Hsr'. injection Hsr' as <- <-.
  rewrite find_support_resistance_filter in Hsr. injection Hsr as <- <-.
  exists an, ratio. rewrite Hsig.
  cbn [trend momentum_status risk_ratio risk final_signal].
  repeat match goal with |- _ /\ _ => split end; try assumption; try reflexivity.
  - destruct (0 <? len _)%nat in Hlo_in; [now apply Hval in Hlo_in | exact Hlo_in].
  - destruct (0 <? len _)%nat in Hhi_in; [now apply Hval in Hhi_in | exact Hhi_in].
Qed.

Lemma momentum_of_cases (rsi : R) :
  (momentum_of rsi = "Overbought" /\ rsi > 70)
  \/ (momentum_of rsi = "Oversold" /\ rsi < 30)
  \/ (momentum_of rsi = "neutral" /\ 30 <= rsi <= 70).
Proof.
  unfold momentum_of.
  destruct (Rgtb rsi 70) eqn:Hup.
  - apply Rgtb_true in Hup. now left.
  - apply Rgtb_false in Hup. right.
    destruct (Rltb rsi 30) eqn:Hdown.
    + apply Rltb_true in Hdown. now left.
    + apply Rltb_false in Hdown. right. split; [reflexivity | lra].
Qed.

(** X9.  Momentum (line 189): overbought iff [rsi > 70], oversold iff
    [rsi < 30], neutral otherwise.  Against the signal: BUY is never
    issued with overbought momentum or high risk, and SELL never with
    oversold momentum. *)
Theorem momentum_and_signal (vol sma ema rsi : R) :
  exists c,
    classify vol sma ema rsi = Ok c /\
    (momentum_status c = "Overbought" <-> rsi > 70) /\
    (momentum_status c = "Oversold" <-> rsi < 30) /\
    (momentum_status c = "neutral" <-> 30 <= rsi <= 70) /\
    (final_signal c = "BUY" ->
       momentum_status c <> "Overbought" /\ risk c <> "High Risk") /\
    (final_signal c = "SELL" -> momentum_status c <> "Oversold").
Proof.
  destruct (classify_eval vol sma ema rsi) as (ratio & _ & Hc).
  eexists. split; [exact Hc|].
  cbn [momentum_status final_signal risk].
  destruct (momentum_of_cases rsi) as [[-> Hm]|[[-> Hm]|[-> Hm]]];
  destruct (signal_of_cases (trend_of ema sma) rsi (risk_of ratio))
    as [[-> Hs]|[[-> Hs]|[-> Hs]]];
  repeat match goal with |- _ /\ _ => split | |- _ <-> _ => split end;
  intros; try discriminate; try lra; try tauto;
  (split; [discriminate | tauto]).
Qed.

Lemma momentum_and_signal_witness :
  exists c, classify 3 100 110 55 = Ok c /\ momentum_status c = "neutral".
Proof.
  destruct (momentum_and_signal 3 100 110 55) as (c & Hc & _ & _ & Hn & _).
  exists c. split; [exact Hc|]. apply Hn. lra.
Defined.

End AnalysisFacts.

(** ** The labels on trending series *)

Section TrendingSeries.

Import Engine Backend Spec Unrolled.

Open Scope string_scope.

Lemma rising_rsi (prices : list R) :
  (2 <= len prices)%nat -> increasing prices -> calculate_rsi prices = Ok 100.
Proof.
  intros Hlen Hinc.
  rewrite (calculate_rsi_formula prices Hlen), (increasing_no_loss prices Hinc).
  unfold rsi_formula. decide_cmp. reflexivity.
Qed.

Lemma falling_rsi (prices : list R) :
  (2 <= len prices)%nat -> strictly_decreasing prices ->
  calculate_rsi prices = Ok 0.
Proof.
  intros Hlen Hdec.
  pose proof (decreasing_some_loss prices Hlen Hdec) as Hl.
  rewrite (calculate_rsi_formula prices Hlen), (decreasing_no_gain prices Hdec).
  rewrite rsi_formula_quotient by lra. f_equal. unfold Rdiv. ring.
Qed.

(** X11.  On a series of at least two points that never falls, the analysis
    reports an RSI of 100 and overbought momentum, and its signal is
    never BUY. *)
Theorem rising_series_never_buy (prices : list R) :
  (2 <= len prices)%nat -> increasing prices ->
  exists an,
    analyze_stock prices = Ok (Some an) /\
    rsi an = 100 /\
    momentum_status (signals an) = "Overbought" /\
    final_signal (signals an) <> "BUY".
Proof.
  intros Hlen Hinc.
  assert (Hne : prices <> []) by (destruct prices; [simpl in Hlen; lia | easy]).
  destruct (analysis_fields prices Hne)
    as (an & ratio & Han & _ & _ & _ & Hr & _ & _ & _ & _ & Hm & _ & _ & Hsig).
  rewrite (rising_rsi prices Hlen Hinc) in Hr. injection Hr as Hr.
  exists an. split; [exact Han|]. split; [now symmetry|].
  rewrite Hm, Hsig, <- Hr. split.
  - unfold momentum_of. decide_cmp. reflexivity.
  - destruct (signal_of_cases (trend_of (ema an) (sma an)) 100 (risk_of ratio))
      as [[_ H]|[[-> _]|[-> _]]]; [lra | discriminate | discriminate].
Qed.

Lemma rising_series_never_buy_witness :
  exists an,
    analyze_stock [97; 100] = Ok (Some an) /\ final_signal (signals an) <> "BUY".
Proof.
  destruct (rising_series_never_buy [97; 100]) as (an & Han & _ & _ & H).
  - simpl. lia.
  - intros [|i] Hi; simpl in *; [lra | lia].
  - exists an. split; [exact Han | exact H].
Defined.

(** X12.  On a strictly falling series of at least two points, the analysis
    reports an RSI of 0 and oversold momentum, and its signal is never
    SELL. *)
Theorem falling_series_never_sell (prices : list R) :
  (2 <= len prices)%nat -> strictly_decreasing prices ->
  exists an,
    analyze_stock prices = Ok (Some an) /\
    rsi an = 0 /\
    momentum_status (signals an) = "Oversold" /\
    final_signal (signals an) <> "SELL".
Proof.
  intros Hlen Hdec.
  assert (Hne : prices <> []) by (destruct prices; [simpl in Hlen; lia | easy]).
  destruct (analysis_fields prices Hne)
    as (an & ratio & Han & _ & _ & _ & Hr & _ & _ & _ & _ & Hm & _ & _ & Hsig).
  rewrite (falling_rsi prices Hlen Hdec) in Hr. injection Hr as Hr.
  exists an. split; [exact Han|]. split; [now symmetry|].
  rewrite Hm, Hsig, <- Hr. split.
  - unfold momentum_of. decide_cmp. reflexivity.
  - destruct (signal_of_cases (trend_of (ema an) (sma an)) 0 (risk_of ratio))
      as [[-> _]|[[_ H]|[-> _]]]; [discriminate | lra | discriminate].
Qed.

Lemma falling_series_never_sell_witness :
  exists an,
    analyze_stock [100; 97] = Ok (Some an) /\ final_signal (signals an) <> "SELL".
Proof.
  destruct (falling_series_never_sell [100; 97]) as (an & Han & _ & _ & H).
  - simpl. lia.
  - intros [|i] Hi; simpl in *; [lra | lia].
  - exists an. split; [exact Han | exact H].
Defined.

End TrendingSeries.

(** * The date window *)

Section DateWindow.

Import Dates.

Open Scope Z_scope.

Ltac dates_cases :=
  unfold adjust_dates, minus_days, date_min;
  repeat match goal with
  | |- context [?a >? ?b] => destruct (Z.gtb_spec a b)
  | |- context [?a <? ?b] => destruct (Z.ltb_spec a b)
  end.

(** X15.  Once [today] is late enough for the five-year lookback to be a date,
    the adjusted window always exists, its start lies within the last
    [365 * 5] days and its end is not in the future. *)
Theorem adjust_dates_bounds (today date_from date_to : Z) :
  365 * 5 < today ->
  exists from to,
    adjust_dates today date_from date_to = Some (from, to) /\
    today - 365 * 5 <= from <= today /\ to <= today.
Proof.
  intros Htoday. dates_cases; try lia; eexists _, _; (split; [reflexivity | lia]).
Qed.

Lemma adjust_dates_bounds_witness :
  exists from to,
    adjust_dates 739000 740000 100 = Some (from, to) /\
    739000 - 365 * 5 <= from <= 739000 /\ to <= 739000.
Proof. apply (adjust_dates_bounds 739000 740000 100). lia. Defined.

(** X16.  The adjusted window is in order (start not after end) exactly when at
    least one of the two given dates is no older than the lookback limit;
    when both are older, the start is the limit and the end lies before
    it. *)
Theorem adjust_dates_ordered (today date_from date_to : Z) :
  365 * 5 < today ->
  exists from to,
    adjust_dates today date_from date_to = Some (from, to) /\
    (from <= to <->
     today - 365 * 5 <= date_from \/ today - 365 * 5 <= date_to) /\
    (date_from < today - 365 * 5 -> date_to < today - 365 * 5 ->
     from = today - 365 * 5 /\ to = Z.max date_from date_to /\ to < from).
Proof.
  intros Htoday. dates_cases; try lia; eexists _, _; (split; [reflexivity | lia]).
Qed.

Lemma adjust_dates_ordered_witness :
  exists from to,
    adjust_dates 739000 100 200 = Some (from, to) /\
    from = 739000 - 365 * 5 /\ to = 200 /\ to < from.
Proof.
  destruct (adjust_dates_ordered 739000 100 200) as (from & to & H & _ & Hold);
    [lia|].
  exists from, to. split; [exact H|].
  destruct Hold as (Hf & Ht & Hlt); [lia | lia |].
  split; [exact Hf|]. split; [|exact Hlt]. rewrite Ht. reflexivity.
Defined.

(** X17.  A window that is already in order, not in the future and within the
    lookback limit is left as it is. *)
Theorem adjust_dates_unchanged (today date_from date_to : Z) :
  365 * 5 < today ->
  today - 365 * 5 <= date_from -> date_from <= date_to -> date_to <= today ->
  adjust_dates today date_from date_to = Some (date_from, date_to).
Proof.
  intros Htoday H1 H2 H3. dates_cases; try lia; reflexivity.
Qed.

Lemma adjust_dates_unchanged_witness :
  adjust_dates 739000 738900 738950 = Some (738900, 738950).
Proof. apply adjust_dates_unchanged; lia. Defined.

(** X18.  When neither date is in the future, the two dates may be given in
    either order. *)
Theorem adjust_dates_either_order (today date_from date_to : Z) :
  date_from <= today -> date_to <= today ->
  adjust_dates today date_from date_to = adjust_dates today date_to date_from.
Proof.
  intros H1 H2. dates_cases; try lia; try reflexivity; f_equal; f_equal; lia.
Qed.

Lemma adjust_dates_either_order_witness :
  adjust_dates 739000 738950 738900 = adjust_dates 739000 738900 738950.
Proof. apply adjust_dates_either_order; lia. Defined.

End DateWindow.

(** * Ticker symbols and the download *)

Section SymbolFacts.

Import Ascii Symbols.

Open Scope string_scope.

Lemma has_dot_app (a b : string) : has_dot (a ++ b) = has_dot a || has_dot b.
Proof.
  induction a as [|c a IH]; [reflexivity|].
  cbn [String.append has_dot]. rewrite IH. now rewrite orb_assoc.
Qed.

Lemma string_length_app (a b : string) :
  String.length (a ++ b) = (String.length a + String.length b)%nat.
Proof. induction a as [|c a IH]; [reflexivity|]. simpl. now rewrite IH. Qed.

Lemma substring_whole (s : string) : substring 0 (String.length s) s = s.
Proof. induction s as [|c s IH]; [reflexivity|]. simpl. now rewrite IH. Qed.

Lemma substring_after (a b : string) :
  substring (String.length a) (String.length b) (a ++ b) = b.
Proof.
  induction a as [|c a IH]; [apply substring_whole|]. simpl. exact IH.
Qed.

Lemma endswith_app (s suffix : string) : endswith (s ++ suffix) suffix = true.
Proof.
  unfold endswith. rewrite string_length_app.
  replace (String.length s + String.length suffix - String.length suffix)%nat
    with (String.length s) by lia.
  rewrite substring_after, String.eqb_refl, andb_true_r.
  apply Nat.leb_le. lia.
Qed.

Lemma remove_NS_app (s : string) :
  has_dot s = false -> remove_NS (s ++ ".NS") = s.
Proof.
  induction s as [|a s IH]; [reflexivity|].
  cbn [has_dot]. intros H. apply orb_false_iff in H. destruct H as [Ha Hs].
  specialize (IH Hs).
  change (String a s ++ ".NS") with (String a (s ++ ".NS")).
  cbn [remove_NS]. rewrite Ha. cbn [andb].
  destruct (s ++ ".NS") as [|b [|c rest]] eqn:E; rewrite IH; reflexivity.
Qed.

Lemma with_exchange_round_trip_parts (s : string) :
  has_dot s = false ->
  with_exchange s = s ++ ".NS" /\
  endswith (with_exchange s) ".NS" = true /\
  remove_NS (with_exchange s) = s.
Proof.
  intros H. unfold with_exchange. rewrite H. cbn [negb].
  split; [reflexivity|]. split; [apply endswith_app | now apply remove_NS_app].
Qed.

(** X19.  After [with_exchange] a symbol always contains a dot, so applying it
    again changes nothing: the conversion of [api_analyze] followed by
    that of [analyze_stock] is the conversion done once. *)
Theorem with_exchange_idempotent (s : string) :
  has_dot (with_exchange s) = true /\
  with_exchange (with_exchange s) = with_exchange s.
Proof.
  assert (H : has_dot (with_exchange s) = true).
  { unfold with_exchange. destruct (has_dot s) eqn:E; cbn [negb]; [exact E|].
    rewrite has_dot_app. now rewrite orb_true_r. }
  split; [exact H|]. unfold with_exchange at 1. now rewrite H.
Qed.

(** X20.  For a symbol without a dot, the converted symbol differs from it,
    ends with [.NS], and removing [.NS] from it gives the symbol back. *)
Theorem with_exchange_round_trip (s : string) :
  has_dot s = false ->
  with_exchange s = s ++ ".NS" /\
  with_exchange s <> s /\
  endswith (with_exchange s) ".NS" = true /\
  remove_NS (with_exchange s) = s.
Proof.
  intros H. unfold with_exchange. rewrite H. cbn [negb].
  split; [reflexivity|]. split; [|split].
  - intros E. apply (f_equal String.length) in E. rewrite string_length_app in E.
    simpl in E. lia.
  - apply endswith_app.
  - now apply remove_NS_app.
Qed.

Lemma with_exchange_round_trip_witness :
  with_exchange "TCS" = "TCS.NS" /\ remove_NS (with_exchange "TCS") = "TCS".
Proof.
  destruct (with_exchange_round_trip "TCS") as (H1 & _ & _ & H2);
    [reflexivity|].
  split; [exact H1 | exact H2].
Defined.

End SymbolFacts.

Section DownloadFacts.

Import Symbols Download.

Open Scope string_scope.

Variables frame world : Type.
Variable is_empty : frame -> bool.
Variable download : string -> world -> option frame * world.

Lemma fetch_data_hit (symbol : string) (w w1 : world) (d : frame) :
  download symbol w = (Some d, w1) -> is_empty d = false ->
  fetch_data is_empty download symbol w = (Some d, w1).
Proof. intros H He. unfold fetch_data. now rewrite H, He. Qed.

(** X21.  Data that [acquire] hands on is never empty. *)
Theorem acquire_never_empty (stock_symbol : string) (w w' : world) (d : frame) :
  acquire is_empty download stock_symbol w = (Some d, w') -> is_empty d = false.
Proof.
  unfold acquire.
  destruct (fetch_data is_empty download (with_exchange stock_symbol) w)
    as [data w1].
  destruct (unusable is_empty data) eqn:E1.
  - destruct (fetch_data is_empty download stock_symbol w1) as [data2 w2].
    destruct (unusable is_empty data2) eqn:E2; [discriminate|].
    intros H. injection H as -> _. exact E2.
  - rewrite E1. intros H. injection H as -> _. exact E1.
Qed.

(** X22.  The order of the requests.  If the converted symbol has data, that
    is the result and nothing else is requested.  For a symbol without a
    dot whose [.NS] form comes back empty, the bare symbol is requested
    next, and if that has data it is the result and nothing else is
    requested. *)
Theorem acquire_order (stock_symbol : string) (w : world) :
  (forall d w1,
     download (with_exchange stock_symbol) w = (Some d, w1) ->
     is_empty d = false ->
     acquire is_empty download stock_symbol w = (Some d, w1)) /\
  (forall d w1 d' w2,
     has_dot stock_symbol = false ->
     download (stock_symbol ++ ".NS") w = (Some d, w1) ->
     is_empty d = true ->
     download stock_symbol w1 = (Some d', w2) ->
     is_empty d' = false ->
     acquire is_empty download stock_symbol w = (Some d', w2)).
Proof.
  split.
  - intros d w1 H He. unfold acquire.
    rewrite (fetch_data_hit _ _ _ _ H He). cbn [unusable]. rewrite He.
    cbn [unusable]. now rewrite He.
  - intros d w1 d' w2 Hdot H He H' He'.
    destruct (with_exchange_round_trip_parts stock_symbol Hdot) as (Hx & Hend & Hrm).
    unfold acquire. rewrite Hx.
    unfold fetch_data at 1. rewrite H, He, <- Hx, Hend. cbn [andb].
    rewrite Hrm, H'. cbn [unusable]. rewrite He'. cbn [unusable]. now rewrite He'.
Qed.

End DownloadFacts.

Section DownloadSamples.

Import Symbols Download.

Open Scope string_scope.

(** A provider that knows only the symbol [TCS], one state of the world. *)
Let only_tcs (symbol : string) (w : unit) : option (list R) * unit :=
  (Some (if (symbol =? "TCS") then [100; 101] else []), w).

Let no_rows (d : list R) : bool :=
  match d with [] => true | _ :: _ => false end.

Lemma acquire_never_empty_witness : no_rows [100; 101] = false.
Proof.
  apply (acquire_never_empty (list R) unit no_rows only_tcs "TCS" tt tt).
  reflexivity.
Defined.

Lemma acquire_order_witness :
  acquire no_rows only_tcs "TCS" tt = (Some [100; 101], tt).
Proof.
  destruct (acquire_order (list R) unit no_rows only_tcs "TCS" tt) as [_ H].
  apply (H [] tt [100; 101] tt); reflexivity.
Defined.

End DownloadSamples.

(** * The response of [analyze_stock] *)

Section ResponseFacts.

Import Engine Backend Response.

Variable round2 : R -> R.
Variable chart : Type.

Lemma percent_of_returns (v s : R) : exists pct, percent_of v s = Ok pct.
Proof.
  unfold percent_of. destruct (Rgtb s 0) eqn:E.
  - apply Rgtb_true in E. rewrite div_nonzero by lra. now eexists.
  - now eexists.
Qed.

(** X23.  [analyze_stock] produces a response exactly when Gemini is
    configured, the price series is not empty and the chart could be
    built.  [current_price_safe] is assigned only inside the Gemini
    block, so without Gemini the dictionary of line 238 cannot be built
    and the function returns [None] for every series.  When there is a
    response, its current price is the rounded last price, its
    explanation is the generated text and its labels are those of the
    classifier. *)
Theorem analyze_stock_response_defined
    (gemini : bool) (generated : option string) (drawn : option chart)
    (prices : list R) :
  ((exists r,
      analyze_stock_response round2 gemini generated drawn prices = Some r)
   <-> gemini = true /\ prices <> [] /\ drawn <> None) /\
  (forall r,
     analyze_stock_response round2 gemini generated drawn prices = Some r ->
     current_price r = round2 (last prices 0) /\
     ai_explanation r = generated /\
     exists an,
       analyze_stock prices = Ok (Some an) /\
       Response.trend r = Backend.trend (signals an) /\
       momentum r = momentum_status (signals an) /\
       Response.risk r = Backend.risk (signals an) /\
       signal r = final_signal (signals an)).
Proof.
  unfold analyze_stock_response.
  destruct prices as [|p rest].
  { split; [|discriminate]. split; [intros [r H]; discriminate | tauto]. }
  destruct (analyze_stock_nonempty (p :: rest)) as (sup & res & an & _ & Han & _);
    [easy|].
  rewrite Han. unfold explain.
  destruct gemini.
  - destruct drawn as [ch|].
    + unfold build, read_local.
      destruct (percent_of_returns (Backend.vol an) (Backend.sma an)) as [pct ->].
      split.
      * split; [intros _; repeat split; easy | intros _; now eexists].
      * intros r H. injection H as <-. cbn.
        split; [reflexivity|]. split; [reflexivity|].
        exists an. repeat split.
    + split; [|discriminate].
      split; [intros [r H]; discriminate | intros (_ & _ & H); now elim H].
  - assert (Hnone : match drawn with
                    | Some ch => build round2 an None None ch
                    | None => None
                    end = None).
    { destruct drawn as [ch|]; [|reflexivity].
      unfold build, read_local.
      now destruct (percent_of (Backend.vol an) (Backend.sma an)). }
    rewrite Hnone. split; [|discriminate].
    split; [intros [r H]; discriminate | intros (H & _); discriminate].
Qed.

End ResponseFacts.

Lemma analyze_stock_response_defined_witness :
  (exists r : Response.response unit,
     Response.analyze_stock_response (fun x => x) true None (Some tt) [97; 100]
     = Some r) /\
  Response.analyze_stock_response (fun x => x) false None (Some tt) [97; 100]
  = None.
Proof.
  destruct (analyze_stock_response_defined (fun x => x) unit
              true None (Some tt) [97; 100]) as [[_ Hon] _].
  destruct (analyze_stock_response_defined (fun x => x) unit
              false None (Some tt) [97; 100]) as [[Hoff _] _].
  split.
  - apply Hon. repeat split; easy.
  - destruct (Response.analyze_stock_response (fun x => x) false None (Some tt)
                [97; 100]) as [r|] eqn:E; [|reflexivity].
    destruct Hoff as [H _]; [now exists r | discriminate].
Defined.

(** * The analysis endpoint *)

Section ApiFacts.

Import Symbols Api.

Open Scope string_scope.

Variables world response : Type.
Variable analyze : string -> string -> string -> world -> option response * world.

(** X24.  A request with an absent or empty parameter is answered with the
    missing-parameters error and no analysis is run. *)
Theorem api_analyze_missing
    (stock_symbol date_from date_to : option string) (w : world) :
  missing stock_symbol || missing date_from || missing date_to = true ->
  api_analyze analyze stock_symbol date_from date_to w = (MissingParameters, w).
Proof.
  intros H. unfold api_analyze.
  destruct stock_symbol as [s|], date_from as [f|], date_to as [t|];
    try reflexivity.
  now rewrite H.
Qed.

(** X25.  With all three parameters present: a symbol containing a dot is
    analysed once, as given; a symbol without a dot is analysed with
    [.NS] appended and, if that fails, once more as given.  The reply is
    the first analysis that succeeds, or the failure naming the symbol as
    given. *)
Theorem api_analyze_attempts
    (a b c : Ascii.ascii) (s from to : string) (w : world) :
  let symbol := String a s in
  let date_from := String b from in
  let date_to := String c to in
  let request := api_analyze analyze (Some symbol) (Some date_from) (Some date_to) w in
  (has_dot symbol = true ->
   request = match analyze symbol date_from date_to w with
             | (Some r, w1) => (Analysis r, w1)
             | (None, w1) => (AnalysisFailed symbol, w1)
             end) /\
  (has_dot symbol = false ->
   request = match analyze (symbol ++ ".NS") date_from date_to w with
             | (Some r, w1) => (Analysis r, w1)
             | (None, w1) =>
                 match analyze symbol date_from date_to w1 with
                 | (Some r, w2) => (Analysis r, w2)
                 | (None, w2) => (AnalysisFailed symbol, w2)
                 end
             end).
Proof.
  intros symbol date_from date_to request. unfold request, api_analyze.
  cbn [missing orb]. split; intros Hdot.
  - assert (Hx : with_exchange symbol = symbol)
      by (unfold with_exchange; now rewrite Hdot).
    rewrite Hx, String.eqb_refl, andb_false_r.
    destruct (analyze symbol date_from date_to w) as [[r|] w1]; reflexivity.
  - destruct (with_exchange_round_trip_parts symbol Hdot) as (Hx & Hend & _).
    rewrite Hend. rewrite Hx.
    assert (Hneq : (symbol =? symbol ++ ".NS") = false).
    { apply String.eqb_neq. intros E. apply (f_equal String.length) in E.
      rewrite string_length_app in E. simpl in E. lia. }
    rewrite Hneq. cbn [negb andb].
    destruct (analyze (symbol ++ ".NS") date_from date_to w) as [[r|] w1];
      [reflexivity|].
    destruct (analyze symbol date_from date_to w1) as [[r|] w2]; reflexivity.
Qed.

End ApiFacts.

Section ApiSamples.

Import Ascii.

Lemma api_analyze_missing_witness :
  Api.api_analyze (fun _ _ _ (w : unit) => (Some 7%nat, w))
    (Some "TCS"%string) None (Some "2024-01-31"%string) tt
  = (Api.MissingParameters, tt).
Proof.
  apply (api_analyze_missing unit nat). reflexivity.
Defined.

Lemma api_analyze_attempts_witness :
  Api.api_analyze
    (fun symbol _ _ (w : nat) =>
       (if (symbol =? "TCS")%string then Some symbol else None, S w))
    (Some "TCS"%string) (Some "2024-01-01"%string) (Some "2024-01-31"%string) 0%nat
  = (Api.Analysis "TCS"%string, 2%nat).
Proof.
  destruct (api_analyze_attempts nat string
              (fun symbol _ _ (w : nat) =>
                 (if (symbol =? "TCS")%string then Some symbol else None, S w))
              "T"%char "2"%char "2"%char "CS" "024-01-01" "024-01-31" 0%nat)
    as [_ H].
  cbv zeta in H. rewrite H; reflexivity.
Defined.

End ApiSamples.

(** * One more price *)

Section Appending.

Import Engine Spec Unrolled.

Lemma nth_prefix (prices : list R) (x : R) (i : nat) :
  (i < len prices)%nat -> nth i (prices ++ [x]) 0 = nth i prices 0.
Proof. intros Hi. now apply app_nth1. Qed.

Lemma ema_at_prefix (alpha : R) (prices : list R) (x : R) (i : nat) :
  (i < len prices)%nat ->
  ema_at alpha (prices ++ [x]) i = ema_at alpha prices i.
Proof.
  induction i as [|i IH]; intros Hi; cbn [ema_at].
  - now apply nth_prefix.
  - rewrite nth_prefix, IH by lia. reflexivity.
Qed.

(** X26.  Extending a non-empty series by one price [x] moves its EMA
    [e] to [alpha * x + (1 - alpha) * e]: the EMA can be kept up to date
    without the history. *)
Theorem calculate_ema_append (alpha : R) (prices : list R) (x : R) :
  prices <> [] ->
  exists e,
    calculate_ema prices alpha = Ok e /\
    calculate_ema (prices ++ [x]) alpha = Ok (alpha * x + (1 - alpha) * e).
Proof.
  intros Hne.
  assert (Hpos : (0 < len prices)%nat) by (destruct prices; [easy | simpl; lia]).
  eexists. split; [now apply calculate_ema_nonempty|].
  rewrite calculate_ema_nonempty by now destruct prices.
  replace (len (prices ++ [x]) - 1)%nat with (S (len prices - 1))
    by (unfold len in *; rewrite length_app; simpl; lia).
  cbn [ema_at]. rewrite ema_at_prefix by lia.
  replace (S (len prices - 1)) with (len prices) by lia.
  unfold len. now rewrite nth_middle.
Qed.

Lemma calculate_ema_append_witness :
  exists e,
    calculate_ema [4; 8] 0.1 = Ok e /\
    calculate_ema ([4; 8] ++ [6]) 0.1 = Ok (0.1 * 6 + (1 - 0.1) * e).
Proof. apply (calculate_ema_append 0.1 [4; 8] 6). easy. Defined.

Lemma is_support_prefix (prices : list R) (x : R) (i : nat) :
  (i + 1 < len prices)%nat ->
  is_support (prices ++ [x]) i = is_support prices i.
Proof.
  intros Hi. unfold is_support. now rewrite !nth_prefix by lia.
Qed.

Lemma is_resistance_prefix (prices : list R) (x : R) (i : nat) :
  (i + 1 < len prices)%nat ->
  is_resistance (prices ++ [x]) i = is_resistance prices i.
Proof.
  intros Hi. unfold is_resistance. now rewrite !nth_prefix by lia.
Qed.

Lemma filtered_values_append (f g : nat -> bool) (prices : list R) (x : R) :
  (2 <= len prices)%nat ->
  (forall i, (i + 1 < len prices)%nat -> f i = g i) ->
  values_at (prices ++ [x]) (filter f (interior_indices (prices ++ [x])))
  = values_at prices (filter g (interior_indices prices))
    ++ (if f (len prices - 1)%nat then [last prices 0] else []).
Proof.
  intros Hlen Hfg. unfold interior_indices, range.
  replace (len (prices ++ [x]) - 1 - 1)%nat with ((len prices - 1 - 1) + 1)%nat
    by (unfold len in *; rewrite length_app; simpl; lia).
  rewrite seq_app, filter_app. unfold values_at. rewrite map_app.
  replace (1 + (len prices - 1 - 1))%nat with (len prices - 1)%nat by lia.
  f_equal.
  - rewrite (filter_ext_in f g).
    + apply map_ext_in. intros i Hi. apply filter_In in Hi. destruct Hi as [Hi _].
      apply in_seq in Hi. apply nth_prefix. lia.
    + intros i Hi. apply in_seq in Hi. apply Hfg. lia.
  - cbn [seq filter]. destruct (f (len prices - 1)%nat); [|reflexivity].
    cbn [map]. rewrite nth_prefix by lia. now rewrite nth_last.
Qed.

(** X27.  One more price never changes the supports and resistances
    already found: the new lists are the old ones, followed by the former
    last price when the new price makes it a strict local minimum
    (respectively maximum). *)
Theorem extrema_append (prices : list R) (x : R) :
  exists sup res sup' res',
    find_support_resistance prices = Ok (sup, res) /\
    find_support_resistance (prices ++ [x]) = Ok (sup', res') /\
    (local_min (prices ++ [x]) (len prices - 1) -> sup' = sup ++ [last prices 0]) /\
    (~ local_min (prices ++ [x]) (len prices - 1) -> sup' = sup) /\
    (local_max (prices ++ [x]) (len prices - 1) -> res' = res ++ [last prices 0]) /\
    (~ local_max (prices ++ [x]) (len prices - 1) -> res' = res).
Proof.
  eexists _, _, _, _.
  split; [apply find_support_resistance_filter|].
  split; [apply find_support_resistance_filter|].
  destruct (Nat.lt_ge_cases (len prices) 2) as [Hshort|Hlen].
  - assert (Hnone : forall l : list R, (len l < 3)%nat -> interior_indices l = []).
    { intros l Hl. unfold interior_indices, range.
      now replace (len l - 1 - 1)%nat with 0%nat by lia. }
    rewrite !Hnone
      by (unfold len in *; try rewrite length_app; simpl; lia).
    cbn [filter values_at map].
    assert (Hmin : ~ local_min (prices ++ [x]) (len prices - 1)).
    { unfold local_min. replace (len prices - 1 - 1)%nat with (len prices - 1)%nat
        by lia. lra. }
    assert (Hmax : ~ local_max (prices ++ [x]) (len prices - 1)).
    { unfold local_max. replace (len prices - 1 - 1)%nat with (len prices - 1)%nat
        by lia. lra. }
    repeat split; intros; try reflexivity; tauto.
  - rewrite (filtered_values_append _ (is_support prices) prices x Hlen)
      by (intros i Hi; now apply is_support_prefix).
    rewrite (filtered_values_append _ (is_resistance prices) prices x Hlen)
      by (intros i Hi; now apply is_resistance_prefix).
    split; [|split; [|split]]; intros H.
    + apply is_support_spec in H. now rewrite H.
    + destruct (is_support (prices ++ [x]) (len prices - 1)) eqn:E.
      * apply is_support_spec in E. tauto.
      * now rewrite app_nil_r.
    + apply is_resistance_spec in H. now rewrite H.
    + destruct (is_resistance (prices ++ [x]) (len prices - 1)) eqn:E.
      * apply is_resistance_spec in E. tauto.
      * now rewrite app_nil_r.
Qed.

Lemma extrema_append_witness :
  exists sup res sup' res',
    find_support_resistance [1; 3] = Ok (sup, res) /\
    find_support_resistance ([1; 3] ++ [2]) = Ok (sup', res') /\
    sup' = sup /\ res' = res ++ [3].
Proof.
  destruct (extrema_append [1; 3] 2)
    as (sup & res & sup' & res' & H & H' & _ & Hs & Hr & _).
  exists sup, res, sup', res'. split; [exact H|]. split; [exact H'|]. split.
  - apply Hs. unfold local_min. simpl. lra.
  - apply Hr. unfold local_max. simpl. lra.
Defined.

End Appending.

(** * The engine in binary64 *)

Section Float64Facts.

Import SpecFloat Float64.

Open Scope Z_scope.


(** Likewise [calculate_volatility] returns infinity on the finite
    positive series [1e200, 1]: the squared deviations overflow. *)
Lemma calculate_volatility_overflows :
  forallb is_price [of_Z (10 ^ 200); of_Z 1] = true /\
  calculate_volatility [of_Z (10 ^ 200); of_Z 1] = Some (Ok (S754_infinity false)).
Proof. split; vm_compute; reflexivity. Qed.

(** On a constant series of two elements or more the averages and the
    volatility are [v] and 0 only up to rounding.  With [v = 0.1] three
    times the sum is 0.30000000000000004, the SMA is the float above 0.1
    and the volatility is not 0; the EMA of [0.3, 0.3] with
    [alpha = 0.1] is the float above 0.3. *)
Lemma constant_series_rounds :
  ratio 1 10 = S754_finite false 7205759403792794 (-56) /\
  calculate_sma [ratio 1 10; ratio 1 10; ratio 1 10]
  = Some (S754_finite false 7205759403792795 (-56)) /\
  calculate_volatility [ratio 1 10; ratio 1 10; ratio 1 10]
  = Some (Ok (S754_finite false 4503599627370496 (-108))) /\
  ratio 3 10 = S754_finite false 5404319552844595 (-54) /\
  calculate_ema [ratio 3 10; ratio 3 10] (ratio 1 10)
  = Ok (S754_finite false 5404319552844596 (-54)).
Proof. repeat split; vm_compute; reflexivity. Qed.

(** What does hold on a constant series holds here too: the RSI of
    [0.1, 0.1, 0.1] is 100, that of [0.1] is 50, and on the one-element
    series the SMA and the EMA are 0.1 and the volatility is 0. *)
Lemma constant_series_exact_part :
  calculate_rsi [ratio 1 10; ratio 1 10; ratio 1 10] = Ok (of_Z 100) /\
  calculate_rsi [ratio 1 10] = Ok (of_Z 50) /\
  calculate_sma [ratio 1 10] = Some (ratio 1 10) /\
  calculate_volatility [ratio 1 10] = Some (Ok (of_Z 0)) /\
  calculate_ema [ratio 1 10] (ratio 1 10) = Ok (ratio 1 10).
Proof. repeat split; vm_compute; reflexivity. Qed.

End Float64Facts.
